(** * create-joji-app: a shallow embedding of the project scaffolder

    The program is a command-line generator: it asks for a location, a
    project name and two yes/no choices, creates a directory tree, writes a
    manifest, four configuration files and four source files, optionally
    runs [npm install], and runs three [git] commands.  The embedding
    follows the asynchronous source file (the one with [execAsync] and
    [Promise.all]); the synchronous file is the same program call for call.
    The older single-pass file, src/index.js, is embedded in [IndexJs].

    Strings are JavaScript strings seen as byte sequences (UTF-8): every
    character the program inspects ([a-z], [0-9], [-], [_], the backslash
    and the slash) is ASCII, so a test on bytes and a test on UTF-16 code
    units agree.  The disk is a finite map from paths to nodes.  Effects
    are threaded through a state-and-exception monad over a world made of
    the disk, the pending terminal input and the log of what happened. *)

From Stdlib Require Import Ascii String NArith Bool List Lia.
From stdpp Require Import base option list gmap strings.

(** ** String helpers *)

Module Str.

(** The characters of a string, first to last. *)
Fixpoint chars (s : string) : list ascii :=
  match s with
  | EmptyString => []
  | String c s' => c :: chars s'
  end.

(** [String.prototype.replace] with a global one-character pattern. *)
Fixpoint replace_all (old new : ascii) (s : string) : string :=
  match s with
  | EmptyString => EmptyString
  | String c s' =>
      String (if Ascii.eqb c old then new else c) (replace_all old new s')
  end.

(** [needle] occurs somewhere in [hay] ([String.prototype.includes]). *)
Fixpoint contains (needle hay : string) : bool :=
  String.prefix needle hay
  || match hay with
     | EmptyString => false
     | String _ hay' => contains needle hay'
     end.

(** The first [n] characters of a string. *)
Fixpoint take (n : nat) (s : string) : string :=
  match n, s with
  | S n', String c s' => String c (take n' s')
  | _, _ => EmptyString
  end.

(** The double quote, for templates that contain it. *)
Definition dq : string := String (ascii_of_nat 34) EmptyString.

(** A double-quoted word, as it appears inside a template. *)
Definition q (s : string) : string := dq +:+ s +:+ dq.

(** The line feed. *)
Definition nl : string := String (ascii_of_nat 10) EmptyString.

(** The backslash, as a character and as a string. *)
Definition backslash : ascii := ascii_of_nat 92.

Definition bs : string := String backslash EmptyString.

End Str.

(** ** Regular expressions

    The fragment of ECMAScript regular expressions the program uses,
    evaluated the way ECMA-262 describes it: a matcher takes the index
    reached so far and a continuation for the rest of the pattern. *)

Module Regex.

Inductive class_atom : Type :=
| Single (c : ascii)
| Range (lo hi : ascii).

Inductive regex : Type :=
| Bol                         (* ^ without the m flag *)
| Eol                         (* $ without the m flag *)
| Class (cs : list class_atom)  (* [...] *)
| Cat (r1 r2 : regex)
| Plus (r : regex).           (* greedy + *)

Definition code (c : ascii) : N := N_of_ascii c.

Definition atom_matches (a : class_atom) (c : ascii) : bool :=
  match a with
  | Single x => (code c =? code x)%N
  | Range lo hi => ((code lo <=? code c) && (code c <=? code hi))%N
  end.

Definition class_matches (cs : list class_atom) (c : ascii) : bool :=
  existsb (fun a => atom_matches a c) cs.

(** Zero or more greedy repetitions of the matcher [m], then [k].  An
    iteration that consumes nothing is rejected, so at most
    [n = length input] iterations are ever useful. *)
Fixpoint star (m : (nat -> bool) -> nat -> bool) (k : nat -> bool)
    (n i : nat) : bool :=
  match n with
  | O => k i
  | S n' => m (fun j => (i <? j)%nat && star m k n' j) i || k i
  end.

Fixpoint run (r : regex) (input : string) (k : nat -> bool) (i : nat)
    : bool :=
  match r with
  | Bol => (i =? 0)%nat && k i
  | Eol => (i =? String.length input)%nat && k i
  | Class cs =>
      match String.get i input with
      | Some c => class_matches cs c && k (S i)
      | None => false
      end
  | Cat r1 r2 => run r1 input (run r2 input k) i
  | Plus r1 =>
      run r1 input (star (run r1 input) k (String.length input)) i
  end.

(** A run of class characters from [i] up to (not including) [j]. *)
Definition class_run (cs : list class_atom) (input : string) (i j : nat)
    : Prop :=
  forall t, i <= t < j ->
    exists c, String.get t input = Some c /\ class_matches cs c = true.

(** [RegExp.prototype.test] on a pattern without the g or y flag: a match
    is looked for from every start index, left to right. *)
Definition test (r : regex) (input : string) : bool :=
  existsb (run r input (fun _ => true)) (seq 0 (S (String.length input))).

End Regex.

(** ** Prompt validators *)

(** What a [validate] callback returns to inquirer: [true], or the message
    to show before asking again. *)
Inductive Verdict : Type :=
| Accept
| Reject (message : string).

(** The class [[a-z0-9-_]]: two ranges, then the hyphen and the underscore
    as themselves. *)
Definition nameClass : list Regex.class_atom :=
  [Regex.Range "a"%char "z"%char; Regex.Range "0"%char "9"%char;
   Regex.Single "-"%char; Regex.Single "_"%char].

(** The literal [/^[a-z0-9-_]+$/]. *)
Definition projectNamePattern : Regex.regex :=
  Regex.Cat Regex.Bol
    (Regex.Cat (Regex.Plus (Regex.Class nameClass)) Regex.Eol).

Definition projectNameMessage : string :=
  "Project name can only contain lowercase letters, numbers, hyphens, and underscores".

(** [validate] of the [projectName] prompt. *)
Definition validateProjectName (input : string) : Verdict :=
  if Regex.test projectNamePattern input then Accept
  else Reject projectNameMessage.

(** The specification's wording of the same test: a non-empty string of
    lowercase letters, digits, hyphens and underscores. *)
Definition name_alphabet : list ascii :=
  Str.chars "abcdefghijklmnopqrstuvwxyz0123456789-_".

Definition well_formed_name (s : string) : Prop :=
  s <> EmptyString /\ Forall (fun c => In c name_alphabet) (Str.chars s).

#[global] Instance well_formed_name_dec (s : string)
  : Decision (well_formed_name s).
Proof. unfold well_formed_name. apply _. Defined.

(** ** The world: disk, terminal and log *)

Inductive Node : Type :=
| Dir
| File (data : string).

(** The three kinds of request the program makes to the operating system. *)
Inductive Effect : Type :=
| EnsureDir (path : string)
| WriteFile (path data : string)
| Exec (command cwd : string).

Inductive SpinKind : Type := Start | Succeed | Fail | Warn.

(** What an observer of a run sees, oldest first. *)
Inductive Event : Type :=
| Sys (e : Effect) (ok : bool)        (* a request and whether it succeeded *)
| Unfinished (path data : string) (kept : option string)
                                      (* a write still in flight when the run
                                         ended, and what it left at its path *)
| Spinner (k : SpinKind) (text : string)
| ConsoleLog (text : string)
| Asked (message : string)            (* a question is displayed *)
| Invalid (message : string).         (* a validator's message is displayed *)

Record World : Type := mkWorld {
  disk : gmap string Node;
  stdin : list string;                (* the lines the user still types *)
  events : list Event
}.

(** The result of a computation: a value, a thrown error (the failed
    request), or a prompt left waiting for input that never comes. *)
Inductive Outcome (A : Type) : Type :=
| Returned (a : A)
| Thrown (e : Effect)
| Waiting.
Arguments Returned {A} a.
Arguments Thrown {A} e.
Arguments Waiting {A}.

Definition IO (A : Type) : Type := World -> Outcome A * World.

#[global] Instance IO_ret : MRet IO := fun A a w => (Returned a, w).

#[global] Instance IO_bind : MBind IO := fun A B f m w =>
  match m w with
  | (Returned a, w') => f a w'
  | (Thrown e, w') => (Thrown e, w')
  | (Waiting, w') => (Waiting, w')
  end.

Definition throw {A : Type} (e : Effect) : IO A := fun w => (Thrown e, w).

(** [try { body } catch (error) { handler }]. *)
Definition try_catch {A : Type} (body : IO A) (handler : Effect -> IO A)
    : IO A := fun w =>
  match body w with
  | (Thrown e, w') => handler e w'
  | r => r
  end.

Definition emit (ev : Event) : IO unit := fun w =>
  (Returned tt, mkWorld (disk w) (stdin w) (events w ++ [ev])).

Definition get_disk : IO (gmap string Node) := fun w => (Returned (disk w), w).

(** What the program takes from Node's [path] module. *)
Class PathLib : Type := {
  path_join : string -> string -> string
}.

(** What the program cannot control: requests that fail for reasons outside
    the model (permissions, a full disk, a missing or non-directory
    ancestor), what a child process does to the disk, and the timing of
    writes that run side by side. *)
Class Host : Type := {
  fs_fault : gmap string Node -> Effect -> bool;
  spawn : string -> string -> gmap string Node -> bool * gmap string Node;
  (* of a write that is cut short by the end of the run: how many of its
     bytes reached the file, or none when the file was not even opened *)
  in_flight : gmap string Node -> string -> string -> option nat;
  (* of several writes of one Promise.all that fail: which one rejects
     first *)
  first_rejection : gmap string Node -> list (string * string) -> nat
}.

(** [fs.existsSync]: true for anything at the path, file or directory. *)
Definition existsSync (d : gmap string Node) (path : string) : bool :=
  match d !! path with
  | Some _ => true
  | None => false
  end.

Definition is_file (n : option Node) : bool :=
  match n with Some (File _) => true | _ => false end.

Definition is_dir (n : option Node) : bool :=
  match n with Some Dir => true | _ => false end.

Section Primitives.
Context {host : Host}.

(** [fs.ensureDir]: succeeds on an existing directory, fails on an
    existing file.  Ancestors are not tracked: the program always asks
    for a parent before its children. *)
Definition ensureDir (path : string) : IO unit := fun w =>
  let e := EnsureDir path in
  if fs_fault (disk w) e || is_file (disk w !! path)
  then (Thrown e, mkWorld (disk w) (stdin w) (events w ++ [Sys e false]))
  else (Returned tt,
        mkWorld (<[path := Dir]> (disk w)) (stdin w)
                (events w ++ [Sys e true])).

(** [fs.writeFile]: creates or replaces a file, fails on a directory. *)
Definition writeFile (path data : string) : IO unit := fun w =>
  let e := WriteFile path data in
  if fs_fault (disk w) e || is_dir (disk w !! path)
  then (Thrown e, mkWorld (disk w) (stdin w) (events w ++ [Sys e false]))
  else (Returned tt,
        mkWorld (<[path := File data]> (disk w)) (stdin w)
                (events w ++ [Sys e true])).

(** [await Promise.all([fs.writeFile(p1, d1), ...])], each write given as
    its path and data.  The writes are all started, on the same disk,
    before anything settles.  When none of them fails they all run to
    their end and the [await] returns.  When some fail, the [await] throws
    the one that rejects first while the others are still in flight; the
    program's handlers only report and rethrow, the rejection is never
    handled and ends the process, so a write that had not failed is cut
    short: the host decides how much of its data, if anything, is in the
    file.  The disk after a throw is the disk the process leaves. *)
Definition rejects (d : gmap string Node) (write : string * string) : bool :=
  fs_fault d (WriteFile write.1 write.2) || is_dir (d !! write.1).

Definition complete (w : World) (write : string * string) : World :=
  mkWorld (<[write.1 := File write.2]> (disk w)) (stdin w)
          (events w ++ [Sys (WriteFile write.1 write.2) true]).

Definition cut_short (d : gmap string Node) (w : World)
    (write : string * string) : World :=
  if rejects d write
  then mkWorld (disk w) (stdin w)
               (events w ++ [Sys (WriteFile write.1 write.2) false])
  else
    let kept := (fun n => Str.take n write.2)
                <$> in_flight d write.1 write.2 in
    mkWorld (match kept with
             | Some s => <[write.1 := File s]> (disk w)
             | None => disk w
             end)
            (stdin w) (events w ++ [Unfinished write.1 write.2 kept]).

Definition promise_all (writes : list (string * string)) : IO unit := fun w =>
  let d := disk w in
  match List.filter (rejects d) writes with
  | [] => (Returned tt, foldl complete w writes)
  | first :: others =>
      let rejected := first :: others in
      let write := default first (rejected !! first_rejection d rejected) in
      (Thrown (WriteFile write.1 write.2), foldl (cut_short d) w writes)
  end.

(** [execAsync(command, { cwd })]: the child does what it does to the
    disk; a non-zero exit is thrown. *)
Definition execAsync (command cwd : string) : IO unit := fun w =>
  let e := Exec command cwd in
  let '(ok, d) := spawn command cwd (disk w) in
  (if ok then Returned tt else Thrown e,
   mkWorld d (stdin w) (events w ++ [Sys e ok])).

End Primitives.

(** [ora(text).start()], [spinner.succeed], [spinner.fail], [spinner.warn]
    and [console.log]; the colours that chalk and [rainbow] add are not
    part of the text. *)
Definition spinner (k : SpinKind) (text : string) : IO unit :=
  emit (Spinner k text).

Definition console_log (text : string) : IO unit := emit (ConsoleLog text).

(** ** inquirer's prompts (library behaviour the program relies on) *)

(** An [input] prompt: an empty line stands for the default; the value is
    taken when [validate] accepts it, otherwise the message is shown and
    the next line is read. *)
Definition entered (default line : string) : string :=
  if decide (line = EmptyString) then default else line.

Fixpoint input_loop (validate : string -> Verdict) (default : string)
    (lines : list string) : list Event * option (string * list string) :=
  match lines with
  | [] => ([], None)
  | line :: rest =>
      let value := entered default line in
      match validate value with
      | Accept => ([], Some (value, rest))
      | Reject msg =>
          let '(evs, r) := input_loop validate default rest in
          (Invalid msg :: evs, r)
      end
  end.

Definition prompt_input (message default : string)
    (validate : string -> Verdict) : IO string := fun w =>
  let '(evs, r) := input_loop validate default (stdin w) in
  match r with
  | Some (value, rest) =>
      (Returned value,
       mkWorld (disk w) rest (events w ++ Asked message :: evs))
  | None =>
      (Waiting, mkWorld (disk w) [] (events w ++ Asked message :: evs))
  end.

(** A [confirm] prompt: an empty line stands for the default, anything
    that starts with y or Y is yes, anything else is no. *)
Definition parse_confirm (default : bool) (line : string) : bool :=
  match line with
  | EmptyString => default
  | String c _ => Ascii.eqb c "y"%char || Ascii.eqb c "Y"%char
  end.

Definition prompt_confirm (message : string) (default : bool) : IO bool :=
  fun w =>
  match stdin w with
  | [] => (Waiting, mkWorld (disk w) [] (events w ++ [Asked message]))
  | line :: rest =>
      (Returned (parse_confirm default line),
       mkWorld (disk w) rest (events w ++ [Asked message]))
  end.

(** ** JSON values and [JSON.stringify(value, null, 2)] *)

Module Json.

#[warnings="-register-all"]
Inductive value : Type :=
| Str (s : string)
| Bool (b : bool)
| Obj (fields : list (string * value)).

(** Reading a property. *)
Fixpoint get (key : string) (fields : list (string * value)) : option value :=
  match fields with
  | [] => None
  | (k, v) :: rest => if decide (k = key) then Some v else get key rest
  end.

(** Assigning a property: an existing key keeps its place, a new key goes
    last. *)
Fixpoint set (key : string) (v : value) (fields : list (string * value))
    : list (string * value) :=
  match fields with
  | [] => [(key, v)]
  | (k, x) :: rest =>
      if decide (k = key) then (k, v) :: rest else (k, x) :: set key v rest
  end.

Definition hex_digit (n : N) : ascii :=
  ascii_of_N (if (n <? 10)%N then 48 + n else 87 + n).

(** The escape of one character inside a JSON string. *)
Definition escape (c : ascii) : string :=
  let n := N_of_ascii c in
  if (n =? 34)%N then Str.bs +:+ Str.dq
  else if (n =? 92)%N then Str.bs +:+ Str.bs
  else if (n =? 8)%N then Str.bs +:+ "b"
  else if (n =? 12)%N then Str.bs +:+ "f"
  else if (n =? 10)%N then Str.bs +:+ "n"
  else if (n =? 13)%N then Str.bs +:+ "r"
  else if (n =? 9)%N then Str.bs +:+ "t"
  else if (n <? 32)%N then
    Str.bs +:+ "u00" +:+ String (hex_digit (n / 16)) (String (hex_digit (n mod 16)) EmptyString)
  else String c EmptyString.

Fixpoint escape_all (s : string) : string :=
  match s with
  | EmptyString => EmptyString
  | String c s' => escape c +:+ escape_all s'
  end.

Definition quote (s : string) : string := Str.dq +:+ escape_all s +:+ Str.dq.

Fixpoint spaces (n : nat) : string :=
  match n with
  | O => EmptyString
  | S n' => String " "%char (spaces n')
  end.

(** [stringify indent v]: the text of [v] when it starts at nesting depth
    [indent / 2]; members sit two spaces further in, one per line. *)
Fixpoint stringify (indent : nat) (v : value) : string :=
  match v with
  | Str s => quote s
  | Bool true => "true"
  | Bool false => "false"
  | Obj [] => "{}"
  | Obj ((k0, v0) :: rest) =>
      let member k x :=
        spaces (2 + indent) +:+ quote k +:+ ": " +:+ x in
      "{" +:+ Str.nl
      +:+ member k0 (stringify (2 + indent) v0)
      +:+ (fix members (fs : list (string * value)) : string :=
             match fs with
             | [] => EmptyString
             | (k, x) :: fs' =>
                 "," +:+ Str.nl +:+ member k (stringify (2 + indent) x)
                 +:+ members fs'
             end) rest
      +:+ Str.nl +:+ spaces indent +:+ "}"
  end.

End Json.

(** ** The answers and the generated texts *)

Record Answers : Type := mkAnswers {
  projectLocation : string;
  projectName : string;
  useRouter : bool;
  installNow : bool
}.

(** The [dependencies] object of createPackageJson. *)
Definition dependencies (answers : Answers) : list (string * Json.value) :=
  let dependencies :=
    [("react", Json.Str "^18.3.1"); ("react-dom", Json.Str "^18.3.1")] in
  if useRouter answers
  then Json.set "react-router-dom" (Json.Str "^6.26.0") dependencies
  else dependencies.

(** The [packageJson] object of createPackageJson. *)
Definition packageJson (answers : Answers) : list (string * Json.value) :=
  [("name", Json.Str (projectName answers));
   ("private", Json.Bool true);
   ("version", Json.Str "0.1.0");
   ("type", Json.Str "module");
   ("scripts", Json.Obj
      [("dev", Json.Str "vite");
       ("build", Json.Str "vite build");
       ("preview", Json.Str "vite preview")]);
   ("dependencies", Json.Obj (dependencies answers));
   ("devDependencies", Json.Obj
      [("@vitejs/plugin-react", Json.Str "^4.3.1");
       ("autoprefixer", Json.Str "^10.4.20");
       ("postcss", Json.Str "^8.4.41");
       ("tailwindcss", Json.Str "^3.4.10");
       ("vite", Json.Str "^5.4.1")])].

(** The text written to package.json. *)
Definition packageJsonText (answers : Answers) : string :=
  Json.stringify 0 (Json.Obj (packageJson answers)).

Definition viteConfig : string :=
  "import { defineConfig } from 'vite'
import react from '@vitejs/plugin-react'

export default defineConfig({
  plugins: [react()],
})
".

Definition tailwindConfig : string :=
  "/** @type {import('tailwindcss').Config} */
export default {
  content: [
    " +:+ Str.q "./index.html" +:+ ",
    " +:+ Str.q "./src/**/*.{js,ts,jsx,tsx}" +:+ ",
  ],
  theme: {
    extend: {},
  },
  plugins: [],
}
".

Definition postcssConfig : string :=
  "export default {
  plugins: {
    tailwindcss: {},
    autoprefixer: {},
  },
}
".

Definition gitignore : string :=
  "node_modules
dist
dist-ssr
*.local
.DS_Store
".

Definition indexHtml (answers : Answers) : string :=
  "<!doctype html>
<html lang=" +:+ Str.q "en" +:+ ">
  <head>
    <meta charset=" +:+ Str.q "UTF-8" +:+ " />
    <meta name=" +:+ Str.q "viewport" +:+ " content=" +:+ Str.q "width=device-width, initial-scale=1.0" +:+ " />
    <title>" +:+ projectName answers +:+ "</title>
  </head>
  <body>
    <div id=" +:+ Str.q "root" +:+ "></div>
    <script type=" +:+ Str.q "module" +:+ " src=" +:+ Str.q "/src/main.jsx" +:+ "></script>
  </body>
</html>
".

Definition mainJsx (answers : Answers) : string :=
  "import { StrictMode } from 'react'
import { createRoot } from 'react-dom/client'
" +:+ (if useRouter answers
         then "import { BrowserRouter } from 'react-router-dom'"
         else EmptyString) +:+ "
import './styles/index.css'
import App from './App.jsx'

createRoot(document.getElementById('root')).render(
  <StrictMode>
    " +:+ (if useRouter answers
         then "<BrowserRouter>
      <App />
    </BrowserRouter>"
         else "<App />") +:+ "
  </StrictMode>,
)
".

Definition appJsx (answers : Answers) : string :=
  "function App() {
  return (
    <div className=" +:+ Str.q "min-h-screen bg-gradient-to-br from-blue-50 to-indigo-100 flex items-center justify-center p-4" +:+ ">
      <div className=" +:+ Str.q "bg-white rounded-2xl shadow-xl p-8 max-w-md w-full" +:+ ">
        <h1 className=" +:+ Str.q "text-4xl font-bold text-gray-800 mb-4" +:+ ">
          " +:+ projectName answers +:+ "
        </h1>
        <p className=" +:+ Str.q "text-gray-600 mb-6" +:+ ">
          Welcome to your new React + Vite + Tailwind project! üöÄ
        </p>
        <button className=" +:+ Str.q "w-full bg-blue-600 hover:bg-blue-700 text-white font-medium py-3 px-4 rounded-lg transition-colors" +:+ ">
          Get Started
        </button>
      </div>
    </div>
  )
}

export default App
".

Definition indexCss : string :=
  "@tailwind base
@tailwind components
@tailwind utilities
".

(** ** The program *)

(** [input.replace(/\\/g, '/')]. *)
Definition normalizeSlashes (input : string) : string :=
  Str.replace_all Str.backslash "/"%char input.

(** [validate] of the [projectLocation] prompt. *)
Definition validateLocation (d : gmap string Node) (input : string)
    : Verdict :=
  let normalizedPath := normalizeSlashes input in
  if existsSync d normalizedPath then Accept
  else Reject "That directory does not exist. Please enter a valid path.".

(** [projectName || 'my-react-app'] for the optional command-line argument. *)
Definition defaultProjectName (projectName : option string) : string :=
  match projectName with
  | Some (String c s) => String c s
  | _ => "my-react-app"
  end.

Definition collisionMessage (name : string) : string :=
  "
‚ùå Directory " +:+ Str.q name +:+ " already exists! Please choose another name.
".

Definition successMessage : string :=
  "
‚ú® Success! Your project is ready!
".

Section Program.
Context {paths : PathLib} {host : Host}.

Definition createProjectStructure (projectPath : string) (answers : Answers)
    : IO unit :=
  spinner Start "Creating project structure...";;
  try_catch
    (ensureDir projectPath;;
     ensureDir (path_join projectPath "src");;
     ensureDir (path_join projectPath "src/components");;
     ensureDir (path_join projectPath "src/assets");;
     ensureDir (path_join projectPath "src/styles");;
     ensureDir (path_join projectPath "public");;
     (if useRouter answers
      then ensureDir (path_join projectPath "src/pages")
      else mret tt);;
     spinner Succeed "Project structure created")
    (fun error =>
       spinner Fail "Failed to create project structure";;
       throw error).

Definition createPackageJson (projectPath : string) (answers : Answers)
    : IO unit :=
  spinner Start "Creating package.json...";;
  try_catch
    (writeFile (path_join projectPath "package.json")
               (packageJsonText answers);;
     spinner Succeed "package.json created")
    (fun error =>
       spinner Fail "Failed to create package.json";;
       throw error).

Definition createConfigFiles (projectPath : string) : IO unit :=
  spinner Start "Creating configuration files...";;
  try_catch
    (promise_all
       [(path_join projectPath "vite.config.js", viteConfig);
        (path_join projectPath "tailwind.config.js", tailwindConfig);
        (path_join projectPath "postcss.config.js", postcssConfig);
        (path_join projectPath ".gitignore", gitignore)];;
     spinner Succeed "Configuration files created")
    (fun error =>
       spinner Fail "Failed to create configuration files";;
       throw error).

Definition createSourceFiles (projectPath : string) (answers : Answers)
    : IO unit :=
  spinner Start "Creating source files...";;
  try_catch
    (promise_all
       [(path_join projectPath "index.html", indexHtml answers);
        (path_join projectPath "src/main.jsx", mainJsx answers);
        (path_join projectPath "src/App.jsx", appJsx answers);
        (path_join projectPath "src/styles/index.css", indexCss)];;
     spinner Succeed "Source files created")
    (fun error =>
       spinner Fail "Failed to create source files";;
       throw error).

Definition installDependencies (projectPath : string) : IO unit :=
  spinner Start "Installing dependencies (this may take a minute)...";;
  try_catch
    (execAsync "npm install" projectPath;;
     spinner Succeed "Dependencies installed")
    (fun error =>
       spinner Fail "Failed to install dependencies";;
       throw error).

Definition gitCommit : string :=
  "git commit -m " +:+ Str.q "Initial commit from create-joji-app".

Definition initializeGit (projectPath : string) : IO unit :=
  spinner Start "Initializing git repository...";;
  try_catch
    (execAsync "git init" projectPath;;
     execAsync "git add ." projectPath;;
     execAsync gitCommit projectPath;;
     spinner Succeed "Git repository initialized")
    (fun error => spinner Warn "Could not initialize git (this is okay!)").

(** The body of [while (!nameIsValid)], once per unit of [fuel]; a result
    is the accepted name with the project path computed from it. *)
Fixpoint nameLoop (fuel : nat) (normalizedLocation default : string)
    : IO (string * string) :=
  match fuel with
  | O => fun w => (Waiting, w)
  | S fuel' =>
      name ← prompt_input "What is your project name?" default
               validateProjectName;
      let projectPath := path_join normalizedLocation name in
      d ← get_disk;
      if existsSync d projectPath
      then console_log (collisionMessage name);;
           nameLoop fuel' normalizedLocation default
      else mret (name, projectPath)
  end.

(** The loop itself: every turn reads at least one line, so one more unit
    of fuel than there are pending lines is never used up. *)
Definition askProjectName (normalizedLocation default : string)
    : IO (string * string) := fun w =>
  nameLoop (S (length (stdin w))) normalizedLocation default w.

(** The four scaffolding calls. *)
Definition scaffold (projectPath : string) (answers : Answers) : IO unit :=
  createProjectStructure projectPath answers;;
  createPackageJson projectPath answers;;
  createConfigFiles projectPath;;
  createSourceFiles projectPath answers.

(** What follows the scaffolding: the optional install, git, and the
    closing messages. *)
Definition finish (projectPath : string) (answers : Answers) : IO unit :=
  (if installNow answers then installDependencies projectPath else mret tt);;
  initializeGit projectPath;;
  console_log successMessage;;
  console_log ("To get started:" +:+ Str.nl);;
  console_log ("  cd " +:+ projectName answers);;
  (if negb (installNow answers) then console_log "  npm install"
   else mret tt);;
  console_log ("  npm run dev" +:+ Str.nl);;
  console_log "Happy coding!!!".

(** Everything the action does once the answers are combined. *)
Definition build (projectPath : string) (answers : Answers) : IO unit :=
  scaffold projectPath answers;;
  finish projectPath answers.

(** The questions, up to the combined answers. *)
Definition ask (projectName : option string) : IO (string * Answers) :=
  d ← get_disk;
  location ← prompt_input "Where should we create this project?"
               "C:/Users/JojoW/Documents/Coding" (validateLocation d);
  let normalizedLocation := normalizeSlashes location in
  '(name, projectPath) ← askProjectName normalizedLocation
                            (defaultProjectName projectName);
  router ← prompt_confirm "Include React Router?" true;
  install ← prompt_confirm "Install dependencies now?" true;
  mret (projectPath, mkAnswers location name router install).

(** The command's action. *)
Definition action (projectName : option string) : IO unit :=
  console_log "Welcome to Joji App Creator!";;
  '(projectPath, answers) ← ask projectName;
  build projectPath answers.

End Program.

(** ** The single-pass variant (src/index.js)

    The same generator without install and git steps: three questions in
    one call, the project placed under the current directory, and one
    existence check that ends the run instead of asking again.  Its
    configuration files, HTML entry and entry script are the texts above;
    its root component and style sheet differ by a few characters. *)

Module IndexJs.

Definition appJsx (answers : Answers) : string :=
  "function App() {
  return (
    <div className=" +:+ Str.q "min-h-screen bg-gradient-to-br from-blue-50 to-indigo-100 flex items-center justify-center p-4" +:+ ">
      <div className=" +:+ Str.q "bg-white rounded-2xl shadow-xl p-8 max-w-md w-full" +:+ ">
        <h1 className=" +:+ Str.q "text-4xl font-bold text-gray-800 mb-4" +:+ ">
          " +:+ projectName answers +:+ "
        </h1>
        <p className=" +:+ Str.q "text-gray-600 mb-6" +:+ ">
          Welcome to your new React + Vite + Tailwind project! 🚀
        </p>
        <button className=" +:+ Str.q "w-full bg-blue-600 hover:bg-blue-700 text-white font-medium py-3 px-4 rounded-lg transition-colors" +:+ ">
          Get Started
        </button>
      </div>
    </div>
  )
}

export default App
".

Definition indexCss : string :=
  "@tailwind base;
@tailwind components;
@tailwind utilities;
".

Definition collisionMessage (name : string) : string :=
  Str.nl +:+ "❌ Directory " +:+ Str.q name
  +:+ " already exists, please try something new.".

Section Program.
Context {paths : PathLib} {host : Host}.

Definition createProjectStructure (projectPath : string) (answers : Answers)
    : IO unit :=
  console_log "📁 Creating folders...";;
  ensureDir projectPath;;
  ensureDir (path_join projectPath "src");;
  ensureDir (path_join projectPath "src/components");;
  ensureDir (path_join projectPath "src/assets");;
  ensureDir (path_join projectPath "src/styles");;
  ensureDir (path_join projectPath "public");;
  (if useRouter answers
   then ensureDir (path_join projectPath "src/pages")
   else mret tt);;
  console_log "✓ Folders created!".

Definition createPackageJson (projectPath : string) (answers : Answers)
    : IO unit :=
  console_log "📦 Creating package.json...";;
  writeFile (path_join projectPath "package.json") (packageJsonText answers);;
  console_log "✓ package.json created!".

Definition createConfigFiles (projectPath : string) : IO unit :=
  console_log "⚙️  Creating config files...";;
  writeFile (path_join projectPath "vite.config.js") viteConfig;;
  writeFile (path_join projectPath "tailwind.config.js") tailwindConfig;;
  writeFile (path_join projectPath "postcss.config.js") postcssConfig;;
  writeFile (path_join projectPath ".gitignore") gitignore;;
  console_log "✓ Config files created!".

Definition createSourceFiles (projectPath : string) (answers : Answers)
    : IO unit :=
  console_log "📝 Creating source files...";;
  writeFile (path_join projectPath "index.html") (indexHtml answers);;
  writeFile (path_join projectPath "src/main.jsx") (mainJsx answers);;
  writeFile (path_join projectPath "src/App.jsx") (appJsx answers);;
  writeFile (path_join projectPath "src/styles/index.css") indexCss;;
  console_log "✓ Source files created!".

(** The command's action; [cwd] is [process.cwd()].  The answer to the
    second question is never read. *)
Definition action (cwd : string) (projectName : option string) : IO unit :=
  console_log (Str.nl +:+ "🚀 Welcome to Joji App Creator!" +:+ Str.nl);;
  name ← prompt_input "What is your project name?"
           (defaultProjectName projectName) validateProjectName;
  location ← prompt_input "Where should we create this project?"
               "/c/Users/JojoW/Documents/Coding" (fun _ => Accept);
  router ← prompt_confirm "Include React Router?" true;
  let answers := mkAnswers location name router false in
  let projectPath := path_join cwd name in
  d ← get_disk;
  if existsSync d projectPath
  then console_log (collisionMessage name)
  else
    createProjectStructure projectPath answers;;
    createPackageJson projectPath answers;;
    createConfigFiles projectPath;;
    createSourceFiles projectPath answers;;
    console_log (Str.nl +:+ "✨ Project created successfully!" +:+ Str.nl).

End Program.

End IndexJs.

(** ** Concrete platforms, to run the model *)

(** A join for plain relative names: the two parts and a slash. *)
Definition slashPaths : PathLib :=
  {| path_join := fun a b => a +:+ "/" +:+ b |}.

(** A host on which the listed commands exit non-zero and the listed paths
    cannot be written or created; children leave the disk alone; a write
    that is cut short has created its file and nothing more; of several
    failing writes the first in the array rejects first. *)
Definition hostWith (badCommands badPaths : list string) : Host :=
  {| fs_fault := fun _ e =>
       match e with
       | EnsureDir p | WriteFile p _ => bool_decide (p ∈ badPaths)
       | Exec _ _ => false
       end;
     spawn := fun command _ d => (negb (bool_decide (command ∈ badCommands)), d);
     in_flight := fun _ _ _ => Some 0;
     first_rejection := fun _ _ => 0 |}.

Definition calmHost : Host := hostWith [] [].

(** A host on which nothing fails and npm install leaves a node_modules
    directory in its working directory. *)
Definition npmHost : Host :=
  {| fs_fault := fun _ _ => false;
     spawn := fun command cwd d =>
       (true,
        if decide (command = "npm install")
        then <[cwd +:+ "/node_modules" := Dir]> d
        else d);
     in_flight := fun _ _ _ => Some 0;
     first_rejection := fun _ _ => 0 |}.

(** A disk with a work directory, an existing project and a plain file. *)
Definition demoDisk : gmap string Node :=
  <["/work" := Dir]> (<["/work/taken" := Dir]> (<["/work/notes.txt" := File "todo"]> ∅)).

Definition demoWorld (lines : list string) : World := mkWorld demoDisk lines [].

(** ** Observations on a run *)

(** The events a computation added to the log. *)
Definition since (before after : World) : list Event :=
  drop (length (events before)) (events after).

(** The directories created, the files written, the commands started and
    the questions displayed, in order. *)
Definition created_dirs (evs : list Event) : list string :=
  omap (fun ev => match ev with
                  | Sys (EnsureDir p) true => Some p
                  | _ => None
                  end) evs.

Definition written_files (evs : list Event) : list (string * string) :=
  omap (fun ev => match ev with
                  | Sys (WriteFile p data) true => Some (p, data)
                  | _ => None
                  end) evs.

(** The writes that were cut short, with what each left, and the paths
    at which the run put a file, whole or in part. *)
Definition unfinished_writes (evs : list Event)
    : list (string * string * option string) :=
  omap (fun ev => match ev with
                  | Unfinished p data kept => Some (p, data, kept)
                  | _ => None
                  end) evs.

Definition write_paths (evs : list Event) : list string :=
  omap (fun ev => match ev with
                  | Sys (WriteFile p _) true => Some p
                  | Unfinished p _ (Some _) => Some p
                  | _ => None
                  end) evs.

Definition commands (evs : list Event) : list string :=
  omap (fun ev => match ev with
                  | Sys (Exec command _) _ => Some command
                  | _ => None
                  end) evs.

Definition questions (evs : list Event) : list string :=
  omap (fun ev => match ev with
                  | Asked message => Some message
                  | _ => None
                  end) evs.

(** What a logged event does to the disk: a successful request inserts a
    node, a write that was cut short inserts what it left, nothing
    removes a node. *)
Definition apply_event (d : gmap string Node) (ev : Event)
    : gmap string Node :=
  match ev with
  | Sys (EnsureDir p) true => <[p := Dir]> d
  | Sys (WriteFile p data) true => <[p := File data]> d
  | Unfinished p _ (Some s) => <[p := File s]> d
  | _ => d
  end.

Definition replay (evs : list Event) (d : gmap string Node)
    : gmap string Node :=
  foldl apply_event d evs.

(** A directory is never turned into a file nor a file into a directory,
    and no command is run. *)
Definition allowed (d : gmap string Node) (ev : Event) : Prop :=
  match ev with
  | Sys (EnsureDir p) true => is_file (d !! p) = false
  | Sys (WriteFile p _) true => is_dir (d !! p) = false
  | Unfinished p _ (Some _) => is_dir (d !! p) = false
  | Sys (Exec _ _) _ => False
  | _ => True
  end.

Fixpoint valid_trace (d : gmap string Node) (evs : list Event) : Prop :=
  match evs with
  | [] => True
  | ev :: rest => allowed d ev /\ valid_trace (apply_event d ev) rest
  end.

(** A computation that touches the disk only by creating directories and
    writing files: the disk it leaves is the disk it found plus its
    successful requests and what its writes left that were cut short, and
    the terminal input is as it found it. *)
Definition fs_only {A : Type} (m : IO A) : Prop :=
  forall w, exists evs,
    events (m w).2 = events w ++ evs
    /\ disk (m w).2 = replay evs (disk w)
    /\ valid_trace (disk w) evs
    /\ stdin (m w).2 = stdin w.

(** The commands initializeGit starts on a disk: each one only after the
    one before it succeeded. *)
Definition gitAttempts {host : Host} (cwd : string) (d : gmap string Node)
    : list string :=
  "git init"
  :: (if (spawn "git init" cwd d).1
      then "git add ."
           :: (if (spawn "git add ." cwd (spawn "git init" cwd d).2).1
               then [gitCommit]
               else [])
      else []).

(** A pending line that the name prompt would accept and whose path is
    free. *)
Definition usable {paths : PathLib} (d : gmap string Node)
    (location default line : string) : Prop :=
  validateProjectName (entered default line) = Accept
  /\ existsSync d (path_join location (entered default line)) = false.

(** The directory names of createProjectStructure, relative to the project
    path, and the files of the three writing steps. *)
Definition subdirectories (answers : Answers) : list string :=
  ["src"; "src/components"; "src/assets"; "src/styles"; "public"]
  ++ (if useRouter answers then ["src/pages"] else []).

Definition generated_files {paths : PathLib} (projectPath : string)
    (answers : Answers) : list (string * string) :=
  [(path_join projectPath "package.json", packageJsonText answers);
   (path_join projectPath "vite.config.js", viteConfig);
   (path_join projectPath "tailwind.config.js", tailwindConfig);
   (path_join projectPath "postcss.config.js", postcssConfig);
   (path_join projectPath ".gitignore", gitignore);
   (path_join projectPath "index.html", indexHtml answers);
   (path_join projectPath "src/main.jsx", mainJsx answers);
   (path_join projectPath "src/App.jsx", appJsx answers);
   (path_join projectPath "src/styles/index.css", indexCss)].

(** The text of the entry script that depends on the router choice. *)
Definition routerImport : string :=
  "import { BrowserRouter } from 'react-router-dom'".

Definition routerWrapped : string :=
  "<BrowserRouter>
      <App />
    </BrowserRouter>".

Definition plainRender : string :=
  "  <StrictMode>
    <App />
  </StrictMode>,".

(** ** The banner colours *)

(** What the program takes from chalk: the six colour functions that
    [rainbow] cycles through. *)
Class Chalk : Type := {
  red : string -> string;
  yellow : string -> string;
  green : string -> string;
  cyan : string -> string;
  blue : string -> string;
  magenta : string -> string
}.

(** A chalk that leaves its argument as it is (colours switched off). *)
Definition plainChalk : Chalk :=
  {| red := id; yellow := id; green := id; cyan := id; blue := id;
     magenta := id |}.

(** The characters [rainbow] does not colour: space, line feed, tab. *)
Definition is_blank (c : ascii) : bool :=
  Ascii.eqb c " "%char || Ascii.eqb c (ascii_of_nat 10)
  || Ascii.eqb c (ascii_of_nat 9).

Section Rainbow.
Context {chalk : Chalk}.

Definition colors : list (string -> string) :=
  [red; yellow; green; cyan; blue; magenta].

(** The map over [text.split('')], from index [i] on, joined again. *)
Fixpoint rainbow_from (i : nat) (text : string) : string :=
  match text with
  | EmptyString => EmptyString
  | String char rest =>
      (if is_blank char then String char EmptyString
       else match colors !! (i mod length colors) with
            | Some colour => colour (String char EmptyString)
            | None => String char EmptyString
            end)
      +:+ rainbow_from (S i) rest
  end.

Definition rainbow (text : string) : string := rainbow_from 0 text.

End Rainbow.

(** ** The synchronous variant

    The same program with [ensureDirSync], [writeFileSync] and [execSync]:
    createProjectStructure and createPackageJson make the requests of the
    asynchronous ones in the same order; the two steps below write their
    four files one after the other instead of through [Promise.all]. *)

Module Sync.

Definition appJsx (answers : Answers) : string :=
  "function App() {
  return (
    <div className=" +:+ Str.q "min-h-screen bg-gradient-to-br from-blue-50 to-indigo-100 flex items-center justify-center p-4" +:+ ">
      <div className=" +:+ Str.q "bg-white rounded-2xl shadow-xl p-8 max-w-md w-full" +:+ ">
        <h1 className=" +:+ Str.q "text-4xl font-bold text-gray-800 mb-4" +:+ ">
          " +:+ projectName answers +:+ "
        </h1>
        <p className=" +:+ Str.q "text-gray-600 mb-6" +:+ ">
          Welcome to your new React + Vite + Tailwind project!🚀
        </p>
        <button className=" +:+ Str.q "w-full bg-blue-600 hover:bg-blue-700 text-white font-medium py-3 px-4 rounded-lg transition-colors" +:+ ">
          Get Started
        </button>
      </div>
    </div>
  )
}

export default App
".

Definition indexCss : string :=
  "@tailwind base;
@tailwind components;
@tailwind utilities;
".

Section Program.
Context {paths : PathLib} {host : Host}.

Definition createConfigFiles (projectPath : string) : IO unit :=
  spinner Start "Creating configuration files...";;
  try_catch
    (writeFile (path_join projectPath "vite.config.js") viteConfig;;
     writeFile (path_join projectPath "tailwind.config.js") tailwindConfig;;
     writeFile (path_join projectPath "postcss.config.js") postcssConfig;;
     writeFile (path_join projectPath ".gitignore") gitignore;;
     spinner Succeed "Configuration files created")
    (fun error =>
       spinner Fail "Failed to create configuration files";;
       throw error).

Definition createSourceFiles (projectPath : string) (answers : Answers)
    : IO unit :=
  spinner Start "Creating source files...";;
  try_catch
    (writeFile (path_join projectPath "index.html") (indexHtml answers);;
     writeFile (path_join projectPath "src/main.jsx") (mainJsx answers);;
     writeFile (path_join projectPath "src/App.jsx") (appJsx answers);;
     writeFile (path_join projectPath "src/styles/index.css") indexCss;;
     spinner Succeed "Source files created")
    (fun error =>
       spinner Fail "Failed to create source files";;
       throw error).

End Program.

End Sync.

(** ** More observations on a run *)

(** The requests made, and the requests that failed, in order. *)
Definition attempted (evs : list Event) : list Effect :=
  omap (fun ev => match ev with
                  | Sys e _ => Some e
                  | Unfinished p data _ => Some (WriteFile p data)
                  | _ => None
                  end) evs.

Definition failed (evs : list Event) : list Effect :=
  omap (fun ev => match ev with
                  | Sys e false => Some e
                  | _ => None
                  end) evs.

(** The write requests of the configuration step and of the source step,
    in source order. *)
Definition config_writes {paths : PathLib} (projectPath : string)
    : list Effect :=
  [WriteFile (path_join projectPath "vite.config.js") viteConfig;
   WriteFile (path_join projectPath "tailwind.config.js") tailwindConfig;
   WriteFile (path_join projectPath "postcss.config.js") postcssConfig;
   WriteFile (path_join projectPath ".gitignore") gitignore].

Definition source_writes {paths : PathLib} (projectPath : string)
    (answers : Answers) : list Effect :=
  [WriteFile (path_join projectPath "index.html") (indexHtml answers);
   WriteFile (path_join projectPath "src/main.jsx") (mainJsx answers);
   WriteFile (path_join projectPath "src/App.jsx") (appJsx answers);
   WriteFile (path_join projectPath "src/styles/index.css") indexCss].

Definition sync_source_writes {paths : PathLib} (projectPath : string)
    (answers : Answers) : list Effect :=
  [WriteFile (path_join projectPath "index.html") (indexHtml answers);
   WriteFile (path_join projectPath "src/main.jsx") (mainJsx answers);
   WriteFile (path_join projectPath "src/App.jsx") (Sync.appJsx answers);
   WriteFile (path_join projectPath "src/styles/index.css") Sync.indexCss].

(** A write request as the computation that makes it, and four of them
    one after the other, then [k]: the first failure ends the sequence. *)
Definition is_write (e : Effect) : Prop :=
  match e with WriteFile _ _ => True | _ => False end.

Definition write_of {host : Host} (e : Effect) : IO unit :=
  match e with
  | WriteFile path data => writeFile path data
  | _ => mret tt
  end.

Fixpoint writes_then {host : Host} (es : list Effect) (k : IO unit)
    : IO unit :=
  match es with
  | [] => k
  | e :: rest => write_of e;; writes_then rest k
  end.

(** A computation all of whose log entries satisfy [P], and whose thrown
    error, if any, is a request its log shows as failed. *)
Definition logs (P : Event -> Prop) {A : Type} (m : IO A) : Prop :=
  forall w, exists evs,
    events (m w).2 = events w ++ evs
    /\ Forall P evs
    /\ (forall e, (m w).1 = Thrown e -> Sys e false ∈ evs).

(** A computation that asks and prints only: the disk stays as it is, no
    request is logged, nothing is thrown. *)
Definition is_request (ev : Event) : Prop :=
  match ev with Sys _ _ | Unfinished _ _ _ => True | _ => False end.

Definition quiet {A : Type} (m : IO A) : Prop :=
  forall w,
    disk (m w).2 = disk w
    /\ (exists evs, events (m w).2 = events w ++ evs
                    /\ Forall (fun ev => ~ is_request ev) evs)
    /\ (forall e, (m w).1 <> Thrown e).

(** A computation that never waits for input. *)
Definition settles {A : Type} (m : IO A) : Prop :=
  forall w, (m w).1 <> Waiting.

Definition is_console (ev : Event) : Prop :=
  match ev with ConsoleLog _ => True | _ => False end.

Definition is_command (ev : Event) : Prop :=
  match ev with Sys (Exec _ _) _ => True | _ => False end.

(** The texts printed with console.log, in order. *)
Definition console_lines (evs : list Event) : list string :=
  omap (fun ev => match ev with
                  | ConsoleLog text => Some text
                  | _ => None
                  end) evs.

(** The names the scaffolding joins to the project path. *)
Definition scaffold_names : list string :=
  ["src"; "src/components"; "src/assets"; "src/styles"; "public";
   "src/pages"; "package.json"; "vite.config.js"; "tailwind.config.js";
   "postcss.config.js"; ".gitignore"; "index.html"; "src/main.jsx";
   "src/App.jsx"; "src/styles/index.css"].

(** A log entry that stays inside the project: a directory or file request
    on the project path or on one of the names joined to it, a command
    among the four the program knows, run in the project path. *)
Definition confined {paths : PathLib} (projectPath : string) (ev : Event)
    : Prop :=
  match ev with
  | Sys (EnsureDir p) _ | Sys (WriteFile p _) _ | Unfinished p _ _ =>
      p = projectPath
      \/ exists name, name ∈ scaffold_names /\ p = path_join projectPath name
  | Sys (Exec command cwd) _ =>
      cwd = projectPath
      /\ command ∈ ["npm install"; "git init"; "git add ."; gitCommit]
  | _ => True
  end.

(** Characters that would let a name leave its directory or need escaping
    in the generated texts. *)
Definition unsafe_chars : list ascii :=
  Str.backslash :: ascii_of_nat 34 :: ascii_of_nat 10 :: ascii_of_nat 9
  :: Str.chars "/.:*?<>|&;'$`~ {}()[]%#@!+=,^".

(** * Properties *)

(** ** Strings *)

Lemma get_chars (s : string) (i : nat) : String.get i s = Str.chars s !! i.
Proof.
  revert i. induction s as [|c s IH]; intros [|i]; simpl; auto.
Qed.

Lemma length_chars (s : string) : String.length s = length (Str.chars s).
Proof. induction s; simpl; auto. Qed.

Lemma chars_app (s t : string) :
  Str.chars (s +:+ t) = Str.chars s ++ Str.chars t.
Proof. induction s as [|c s IH]; simpl; [done|]. by rewrite IH. Qed.

Lemma string_app_assoc (s t u : string) :
  (s +:+ t) +:+ u = s +:+ (t +:+ u).
Proof.
  induction s as [|c s IH]; [reflexivity|].
  change (String c ((s +:+ t) +:+ u) = String c (s +:+ (t +:+ u))).
  by rewrite IH.
Qed.

Lemma prefix_spec (p s : string) :
  String.prefix p s = true <-> exists t, s = p +:+ t.
Proof.
  revert s. induction p as [|c p IH]; intros [|d s]; simpl.
  - split; [intros _; by exists EmptyString | done].
  - split; [intros _; by exists (String d s) | done].
  - split; [done | intros [t Ht]; discriminate].
  - destruct (ascii_dec c d) as [->|Hne].
    + rewrite IH. split; intros [t Ht]; exists t;
        [by rewrite Ht | by injection Ht].
    + split; [done | intros [t Ht]; injection Ht; congruence].
Qed.

(** [Str.contains] finds exactly the strings that have the needle between
    some prefix and some suffix. *)
Lemma contains_spec (needle hay : string) :
  Str.contains needle hay = true
  <-> exists before after, hay = before +:+ needle +:+ after.
Proof.
  induction hay as [|c hay IH]; cbn [Str.contains].
  - rewrite orb_false_r, prefix_spec. split.
    + intros [t Ht]. by exists EmptyString, t.
    + intros [[|b before] [after H]]; [by exists after | discriminate].
  - rewrite orb_true_iff, prefix_spec, IH. split.
    + intros [[t Ht] | (before & after & H)].
      * by exists EmptyString, t.
      * exists (String c before), after. simpl. by rewrite H.
    + intros [[|b before] [after H]].
      * left. by exists after.
      * right. exists before, after. simpl in H. by injection H.
Qed.

(** ** The project-name pattern *)

Module RegexFacts.
Import Regex.

Lemma run_Class cs input k i :
  run (Class cs) input k i
  = match String.get i input with
    | Some c => class_matches cs c && k (S i)
    | None => false
    end.
Proof. reflexivity. Qed.

Lemma run_Eol input k i :
  run Eol input k i = (i =? String.length input)%nat && k i.
Proof. reflexivity. Qed.

Lemma star_class cs input k n i :
  star (run (Class cs) input) k n i = true
  <-> exists j, i <= j <= i + n /\ class_run cs input i j /\ k j = true.
Proof.
  revert i. induction n as [|n IH]; intros i; cbn [star].
  - split.
    + intros Hk. exists i. repeat split; [lia | lia | | done].
      intros t Ht. lia.
    + intros (j & Hj & _ & Hk). by replace i with j by lia.
  - rewrite orb_true_iff. split.
    + intros [Hm | Hk].
      * rewrite run_Class in Hm.
        destruct (String.get i input) as [c|] eqn:Hget; [|done].
        apply andb_true_iff in Hm as [Hc Hrest].
        apply andb_true_iff in Hrest as [_ Hrest].
        apply IH in Hrest as (j & Hj & Hrun & Hk).
        exists j. repeat split; [lia | lia | | done].
        intros t Ht. destruct (decide (t = i)) as [->|Hne]; [eauto|].
        apply Hrun. lia.
      * exists i. repeat split; [lia | lia | | done].
        intros t Ht. lia.
    + intros (j & Hj & Hrun & Hk).
      destruct (decide (j = i)) as [->|Hne]; [by right | left].
      rewrite run_Class.
      destruct (Hrun i) as (c & -> & Hc); [lia|].
      rewrite Hc, andb_true_l.
      replace (i <? S i)%nat with true by (symmetry; apply Nat.ltb_lt; lia).
      rewrite andb_true_l. apply IH. exists j. repeat split; [lia | lia | | done].
      intros t Ht. apply Hrun. lia.
Qed.

(** Only the start index 0 can satisfy a pattern that opens with [^]. *)
Lemma test_anchored r input :
  test (Cat Bol r) input = run r input (fun _ => true) 0.
Proof.
  unfold test. simpl.
  assert (H : forall l, existsb
             (fun i => (i =? 0)%nat && run r input (fun _ => true) i)
             (map S l) = false).
  { induction l as [|x l IH]; simpl; auto. }
  rewrite <- seq_shift, H. apply orb_false_r.
Qed.

(** The class is the alphabet of the specification, character by
    character. *)
Lemma nameClass_alphabet (c : ascii) :
  class_matches nameClass c = bool_decide (c ∈ name_alphabet).
Proof. destruct c as [[] [] [] [] [] [] [] []]; vm_compute; reflexivity. Qed.

Lemma class_run_Forall cs (input : string) :
  class_run cs input 0 (String.length input)
  <-> Forall (fun c => class_matches cs c = true) (Str.chars input).
Proof.
  unfold class_run. rewrite Forall_lookup, length_chars. split.
  - intros H i c Hi.
    destruct (H i) as (c' & Hget & Hc).
    + split; [lia|]. by eapply lookup_lt_Some.
    + rewrite get_chars in Hget. congruence.
  - intros H t [_ Ht]. apply lookup_lt_is_Some_2 in Ht as [c Hc].
    exists c. rewrite get_chars. eauto.
Qed.

Lemma test_projectNamePattern (input : string) :
  test projectNamePattern input = bool_decide (well_formed_name input).
Proof.
  unfold projectNamePattern. rewrite test_anchored.
  apply eq_true_iff_eq.
  rewrite bool_decide_eq_true.
  change (run (Cat (Plus (Class nameClass)) Eol) input (fun _ => true) 0)
    with (run (Class nameClass) input
            (star (run (Class nameClass) input)
               (run Eol input (fun _ => true)) (String.length input)) 0).
  assert (Hwf : well_formed_name input
    <-> 0 < String.length input
        /\ class_run nameClass input 0 (String.length input)).
  { unfold well_formed_name. rewrite class_run_Forall. split.
    - intros [Hne Hall]. split.
      + destruct input; [done | simpl; lia].
      + eapply Forall_impl; [exact Hall|]. intros c Hc. cbv beta in Hc.
        rewrite nameClass_alphabet. apply bool_decide_eq_true.
        by apply list_elem_of_In.
    - intros [Hlen Hall]. split.
      + destruct input; [simpl in Hlen; lia | done].
      + eapply Forall_impl; [exact Hall|]. intros c Hc. cbv beta in Hc.
        rewrite nameClass_alphabet in Hc. apply bool_decide_eq_true in Hc.
        by apply list_elem_of_In. }
  rewrite Hwf. clear Hwf. rewrite run_Class. split.
  - destruct (String.get 0 input) as [c|] eqn:Hget; [|done].
    intros H. apply andb_true_iff in H as [Hc Hstar].
    apply star_class in Hstar as (j & Hj & Hrun & Hk).
    rewrite run_Eol in Hk. apply andb_true_iff in Hk as [Hk _]. apply Nat.eqb_eq in Hk. subst j.
    split; [lia|]. intros t Ht.
    destruct (decide (t = 0)) as [->|Hne]; [eauto|]. apply Hrun. lia.
  - intros [Hlen Hrun].
    destruct (Hrun 0) as (c & -> & Hc); [lia|]. rewrite Hc.
    rewrite andb_true_l.
    apply star_class. exists (String.length input).
    repeat split; [lia | lia | |].
    + intros t Ht. apply Hrun. lia.
    + by rewrite run_Eol, Nat.eqb_refl.
Qed.

End RegexFacts.

(** C1.  The project-name validator accepts an input exactly when it is a
    non-empty string of lowercase letters, digits, hyphens and underscores,
    which is what [/^[a-z0-9-_]+$/] matches; every other input gets the
    error message instead of [true]. *)
Theorem validateProjectName_spec (input : string) :
  (validateProjectName input = Accept <-> well_formed_name input)
  /\ validateProjectName input
     = (if decide (well_formed_name input) then Accept
        else Reject projectNameMessage).
Proof.
  unfold validateProjectName.
  rewrite RegexFacts.test_projectNamePattern.
  destruct (decide (well_formed_name input)) as [H|H].
  - rewrite bool_decide_eq_true_2 by done. done.
  - rewrite bool_decide_eq_false_2 by done. split; [|done].
    split; [discriminate | done].
Qed.

(** ** The generated texts *)

(** The manifest depends on the project name and the router choice only. *)
Lemma packageJsonText_depends (answers : Answers) :
  packageJsonText answers
  = packageJsonText
      (mkAnswers EmptyString (projectName answers) (useRouter answers) false).
Proof. reflexivity. Qed.

(** The entry script depends on the router choice only. *)
Lemma mainJsx_depends (answers : Answers) :
  mainJsx answers
  = mainJsx (mkAnswers EmptyString EmptyString (useRouter answers) false).
Proof. reflexivity. Qed.

(** C4.  The entry script has the line that imports BrowserRouter, and
    App wrapped in a BrowserRouter element, exactly when the router was
    chosen; otherwise StrictMode holds the plain App element and the text
    mentions neither BrowserRouter nor react-router-dom. *)
Theorem mainJsx_router (answers : Answers) :
  Str.contains (Str.nl +:+ routerImport +:+ Str.nl) (mainJsx answers)
    = useRouter answers
  /\ Str.contains routerWrapped (mainJsx answers) = useRouter answers
  /\ Str.contains plainRender (mainJsx answers) = negb (useRouter answers)
  /\ Str.contains "BrowserRouter" (mainJsx answers) = useRouter answers
  /\ Str.contains "react-router-dom" (mainJsx answers) = useRouter answers.
Proof.
  rewrite mainJsx_depends. destruct (useRouter answers);
    vm_compute; repeat split.
Qed.

(** ** Running computations *)

Lemma bind_unfold {A B : Type} (m : IO A) (f : A -> IO B) (w : World) :
  (m ≫= f) w
  = match m w with
    | (Returned a, w') => f a w'
    | (Thrown e, w') => (Thrown e, w')
    | (Waiting, w') => (Waiting, w')
    end.
Proof. reflexivity. Qed.

Lemma bind_returned {A B : Type} (m : IO A) (f : A -> IO B) w b w' :
  (m ≫= f) w = (Returned b, w')
  -> exists a w1, m w = (Returned a, w1) /\ f a w1 = (Returned b, w').
Proof.
  rewrite bind_unfold. destruct (m w) as [[a|e|] w1]; [eauto | done | done].
Qed.

Lemma bind_after {A B : Type} (m : IO A) (f : A -> IO B) w a w1 :
  m w = (Returned a, w1) -> (m ≫= f) w = f a w1.
Proof. intros H. by rewrite bind_unfold, H. Qed.


Lemma ret_returned {A : Type} (a b : A) w w' :
  (mret a : IO A) w = (Returned b, w') -> b = a /\ w' = w.
Proof. intros [= -> ->]. done. Qed.

Lemma emit_returned ev w u w' :
  emit ev w = (Returned u, w')
  -> w' = mkWorld (disk w) (stdin w) (events w ++ [ev]).
Proof. intros [= _ <-]. done. Qed.

(** A handler that reports and rethrows lets nothing through but the
    results of the body. *)
Lemma try_rethrow_returned {A : Type} (body : IO A) (report : IO unit) w a w' :
  try_catch body (fun error => report;; throw error) w = (Returned a, w')
  -> body w = (Returned a, w').
Proof.
  unfold try_catch. destruct (body w) as [[b|e|] w1]; [done | | done].
  rewrite bind_unfold. destruct (report w1) as [[u|e1|] w2]; done.
Qed.

Section Requests.
Context {host : Host}.

Lemma ensureDir_returned path w u w' :
  ensureDir path w = (Returned u, w')
  -> w' = mkWorld (<[path := Dir]> (disk w)) (stdin w)
            (events w ++ [Sys (EnsureDir path) true]).
Proof.
  unfold ensureDir.
  destruct (fs_fault (disk w) (EnsureDir path) || is_file (disk w !! path));
    [done|]. intros [= _ <-]. done.
Qed.

Lemma writeFile_returned path data w u w' :
  writeFile path data w = (Returned u, w')
  -> w' = mkWorld (<[path := File data]> (disk w)) (stdin w)
            (events w ++ [Sys (WriteFile path data) true]).
Proof.
  unfold writeFile.
  destruct (fs_fault (disk w) (WriteFile path data)
            || is_dir (disk w !! path)); [done|]. intros [= _ <-]. done.
Qed.

Lemma promise_all_returned writes w u w' :
  promise_all writes w = (Returned u, w') -> w' = foldl complete w writes.
Proof.
  unfold promise_all.
  destruct (List.filter (rejects (disk w)) writes); [|done].
  by intros [= _ <-].
Qed.

End Requests.

(** Taking a successful run apart, request by request. *)
Ltac run_returned H :=
  lazymatch type of H with
  | @mbind IO _ _ _ _ _ _ = (Returned _, _) =>
      let a := fresh "a" in
      let w1 := fresh "w" in
      let Hm := fresh "Hm" in
      apply bind_returned in H as (a & w1 & Hm & H);
      run_returned Hm; run_returned H
  | try_catch _ _ _ = (Returned _, _) =>
      apply try_rethrow_returned in H; run_returned H
  | promise_all _ _ = (Returned _, _) =>
      apply promise_all_returned in H;
      cbn [foldl] in H; unfold complete in H;
      cbn [fst snd disk stdin events] in H; subst
  | ensureDir _ _ = (Returned _, _) =>
      apply ensureDir_returned in H; cbn [disk stdin events] in H; subst
  | writeFile _ _ _ = (Returned _, _) =>
      apply writeFile_returned in H; cbn [disk stdin events] in H; subst
  | spinner _ _ _ = (Returned _, _) =>
      apply emit_returned in H; cbn [disk stdin events] in H; subst
  | console_log _ _ = (Returned _, _) =>
      apply emit_returned in H; cbn [disk stdin events] in H; subst
  | emit _ _ = (Returned _, _) =>
      apply emit_returned in H; cbn [disk stdin events] in H; subst
  | @mret IO _ _ _ _ = (Returned _, _) =>
      apply ret_returned in H as [? ?]; subst
  | _ => idtac
  end.

(** Reading the observations off the world a successful run ends in. *)
Ltac log_returned :=
  cbn [events disk stdin]; rewrite <- ?app_assoc; cbn [app];
  eexists; repeat split; reflexivity.

Lemma since_app (w w' : World) (evs : list Event) :
  events w' = events w ++ evs -> since w w' = evs.
Proof. intros H. unfold since. rewrite H. apply drop_app_length. Qed.

Section ProgramFacts.
Context {paths : PathLib} {host : Host}.

(** A successful createProjectStructure: the root, then the
    sub-directories, nothing else. *)
Lemma createProjectStructure_returned projectPath answers w w' :
  createProjectStructure projectPath answers w = (Returned tt, w')
  -> exists evs, events w' = events w ++ evs
       /\ stdin w' = stdin w
       /\ disk w' = replay evs (disk w)
       /\ created_dirs evs
          = projectPath
            :: map (path_join projectPath) (subdirectories answers)
       /\ written_files evs = []
       /\ commands evs = [].
Proof.
  intros H. unfold createProjectStructure, subdirectories in *.
  destruct (useRouter answers); run_returned H; log_returned.
Qed.

End ProgramFacts.

(** ** Replaying the log on the disk *)

Lemma replay_app evs1 evs2 d :
  replay (evs1 ++ evs2) d = replay evs2 (replay evs1 d).
Proof. apply foldl_app. Qed.

Lemma valid_trace_app d evs1 evs2 :
  valid_trace d (evs1 ++ evs2)
  <-> valid_trace d evs1 /\ valid_trace (replay evs1 d) evs2.
Proof.
  revert d. induction evs1 as [|ev evs1 IH]; intros d; simpl.
  - tauto.
  - rewrite IH. tauto.
Qed.






(** A file stays with its data as long as nothing is put at its path
    again. *)
Lemma replay_keeps_data evs d p data :
  valid_trace d evs -> d !! p = Some (File data)
  -> p ∉ write_paths evs
  -> replay evs d !! p = Some (File data).
Proof.
  revert d. induction evs as [|ev evs IH]; intros d Hv Hd Hnw; simpl; [done|].
  destruct Hv as [Hok Hv].
  destruct ev as [[q|q c|c cwd] [|]|q c [kept|]| | | |]; simpl in *;
    try (by apply IH).
  - apply IH; [done | | done].
    destruct (decide (q = p)) as [->|Hne]; [|by rewrite lookup_insert_ne].
    by rewrite Hd in Hok.
  - apply not_elem_of_cons in Hnw as [Hne Hnw].
    apply IH; [done | | done]. by rewrite lookup_insert_ne.
  - apply not_elem_of_cons in Hnw as [Hne Hnw].
    apply IH; [done | | done]. by rewrite lookup_insert_ne.
Qed.





(** With pairwise distinct paths, every written file holds its data, and
    at the path of a write that was cut short is what that write left. *)
Lemma replay_written_data evs d p data :
  valid_trace d evs -> NoDup (write_paths evs)
  -> (p, data) ∈ written_files evs
  -> replay evs d !! p = Some (File data).
Proof.
  revert d. induction evs as [|ev evs IH]; intros d Hv Hnd Hin; simpl.
  - by apply elem_of_nil in Hin.
  - destruct Hv as [Hok Hv].
    destruct ev as [[q|q c|c cwd] [|]|q c [kept|]| | | |]; simpl in *;
      try (by apply IH).
    + apply NoDup_cons in Hnd as [Hfresh Hnd].
      apply elem_of_cons in Hin as [[= -> ->]|Hin]; [|by apply IH].
      apply replay_keeps_data; [done | apply lookup_insert_eq | done].
    + apply NoDup_cons in Hnd as [Hfresh Hnd]. by apply IH.
Qed.


(** ** The writes of one Promise.all *)

Lemma take_prefix n (s : string) : String.prefix (Str.take n s) s = true.
Proof.
  revert s. induction n as [|n IH]; intros [|c s]; simpl; try done.
  destruct (ascii_dec c c); [apply IH | done].
Qed.

Section Batch.
Context {host : Host}.

(** Files put on a disk make no directory. *)
Lemma foldl_complete writes w :
  Forall (fun write => is_dir (disk w !! write.1) = false) writes
  -> let evs := map (fun write => Sys (WriteFile write.1 write.2) true)
                  writes in
     foldl complete w writes
     = mkWorld (replay evs (disk w)) (stdin w) (events w ++ evs)
     /\ valid_trace (disk w) evs.
Proof.
  revert w. induction writes as [|[p data] writes IH]; intros w Hok evs.
  - subst evs. destruct w. simpl. by rewrite app_nil_r.
  - apply Forall_cons in Hok as [Hp Hok]. subst evs.
    cbn [foldl map valid_trace replay].
    destruct (IH (complete w (p, data))) as [-> Hv].
    { cbn [complete disk fst snd]. eapply Forall_impl; [exact Hok|].
      intros [q c] Hq. cbn [fst] in *.
      destruct (decide (p = q)) as [->|Hne];
        [by rewrite lookup_insert_eq | by rewrite lookup_insert_ne]. }
    cbn [complete disk stdin events fst snd] in *.
    rewrite <- app_assoc. done.
Qed.

(** The entry a write of a failing Promise.all leaves in the log. *)
Lemma foldl_cut_short d writes w :
  (forall p, is_dir (d !! p) = false -> is_dir (disk w !! p) = false)
  -> exists evs,
       foldl (cut_short d) w writes
       = mkWorld (replay evs (disk w)) (stdin w) (events w ++ evs)
       /\ valid_trace (disk w) evs
       /\ Forall2 (fun write ev =>
                     if rejects d write
                     then ev = Sys (WriteFile write.1 write.2) false
                     else exists kept,
                            ev = Unfinished write.1 write.2 kept
                            /\ match kept with
                               | Some s => String.prefix s write.2 = true
                               | None => True
                               end) writes evs.
Proof.
  revert w. induction writes as [|[p data] writes IH]; intros w Hd.
  - exists []. destruct w. simpl. rewrite app_nil_r. repeat split. constructor.
  - cbn [foldl]. unfold cut_short at 2. cbn [fst snd].
    destruct (rejects d (p, data)) eqn:Hr.
    + destruct (IH (mkWorld (disk w) (stdin w)
                      (events w ++ [Sys (WriteFile p data) false])))
        as (evs & -> & Hv & Hall); [done|].
      exists (Sys (WriteFile p data) false :: evs).
      cbn [disk stdin events replay foldl apply_event valid_trace allowed].
      rewrite <- app_assoc. repeat split; try done.
      constructor; [by rewrite Hr | done].
    + assert (Hp : is_dir (disk w !! p) = false).
      { apply Hd. unfold rejects in Hr. cbn [fst] in Hr.
        by apply orb_false_iff in Hr as [_ Hr]. }
      destruct (in_flight d p data) as [n|]; cbn [fmap option_fmap option_map].
      * destruct (IH (mkWorld (<[p := File (Str.take n data)]> (disk w))
                        (stdin w)
                        (events w
                         ++ [Unfinished p data (Some (Str.take n data))])))
          as (evs & -> & Hv & Hall).
        { intros q Hq. cbn [disk].
          destruct (decide (p = q)) as [->|Hne];
            [by rewrite lookup_insert_eq
            | rewrite lookup_insert_ne by done; by apply Hd]. }
        exists (Unfinished p data (Some (Str.take n data)) :: evs).
        cbn [disk stdin events replay foldl apply_event valid_trace allowed]
          in *.
        rewrite <- app_assoc. repeat split; try done.
        constructor; [|done]. rewrite Hr. eexists. split; [done|].
        apply take_prefix.
      * destruct (IH (mkWorld (disk w) (stdin w)
                        (events w ++ [Unfinished p data None])))
          as (evs & -> & Hv & Hall); [done|].
        exists (Unfinished p data None :: evs).
        cbn [disk stdin events replay foldl apply_event valid_trace allowed].
        rewrite <- app_assoc. repeat split; try done.
        constructor; [|done]. rewrite Hr. by eexists.
Qed.

Lemma filter_nil_rejects d writes :
  List.filter (rejects d) writes = []
  -> Forall (fun write => rejects d write = false) writes.
Proof.
  induction writes as [|write writes IH]; [constructor|].
  cbn [List.filter]. destruct (rejects d write) eqn:Hr; [done|].
  intros H. constructor; [done | by apply IH].
Qed.

(** What one Promise.all does: its log entries, one per write and in the
    order of the array, the disk they leave, and its outcome. *)
Lemma promise_all_run writes w :
  let d := disk w in
  let rejected := List.filter (rejects d) writes in
  exists evs,
    (promise_all writes w).2
    = mkWorld (replay evs d) (stdin w) (events w ++ evs)
    /\ valid_trace d evs
    /\ Forall2 (fun write ev =>
                  if rejects d write
                  then ev = Sys (WriteFile write.1 write.2) false
                  else match rejected with
                       | [] => ev = Sys (WriteFile write.1 write.2) true
                       | _ => exists kept,
                                ev = Unfinished write.1 write.2 kept
                                /\ match kept with
                                   | Some s => String.prefix s write.2 = true
                                   | None => True
                                   end
                       end) writes evs
    /\ (promise_all writes w).1
       = match rejected with
         | [] => Returned tt
         | first :: _ =>
             let write :=
               default first (rejected !! first_rejection d rejected) in
             Thrown (WriteFile write.1 write.2)
         end.
Proof.
  intros d rejected. subst d rejected. unfold promise_all.
  destruct (List.filter (rejects (disk w)) writes) as [|first others] eqn:Hf.
  - pose proof (filter_nil_rejects _ _ Hf) as Hok.
    destruct (foldl_complete writes w) as [Hw Hv].
    { eapply Forall_impl; [exact Hok|]. intros write Hr.
      unfold rejects in Hr. by apply orb_false_iff in Hr as [_ Hr]. }
    eexists. cbn [fst snd]. split; [exact Hw|]. split; [exact Hv|].
    split; [|done]. clear Hw Hv Hf.
    induction Hok as [|write writes Hr _ IH]; cbn [map]; constructor;
      [by rewrite Hr | done].
  - destruct (foldl_cut_short (disk w) writes w) as (evs & Hw & Hv & Hall);
      [done|].
    exists evs. cbn [fst snd]. repeat split; done.
Qed.

(** The error a Promise.all throws is one of its writes, and one that the
    host refused. *)
Lemma promise_all_thrown writes w e :
  (promise_all writes w).1 = Thrown e
  -> exists write, write ∈ writes /\ rejects (disk w) write = true
                   /\ e = WriteFile write.1 write.2.
Proof.
  unfold promise_all.
  destruct (List.filter (rejects (disk w)) writes) as [|first others] eqn:Hf;
    [done|].
  cbn [fst]. intros [= <-]. eexists. split; [|split; [|reflexivity]].
  - assert (Hin : default first
                    ((first :: others)
                       !! first_rejection (disk w) (first :: others))
                  ∈ List.filter (rejects (disk w)) writes).
    { rewrite Hf.
      destruct ((first :: others)
                  !! first_rejection (disk w) (first :: others)) eqn:Hl;
        [by eapply list_elem_of_lookup_2 | apply list_elem_of_here]. }
    apply list_elem_of_In, filter_In in Hin as [Hin _].
    by apply list_elem_of_In.
  - assert (Hin : default first
                    ((first :: others)
                       !! first_rejection (disk w) (first :: others))
                  ∈ List.filter (rejects (disk w)) writes).
    { rewrite Hf.
      destruct ((first :: others)
                  !! first_rejection (disk w) (first :: others)) eqn:Hl;
        [by eapply list_elem_of_lookup_2 | apply list_elem_of_here]. }
    by apply list_elem_of_In, filter_In in Hin as [_ Hin].
Qed.

End Batch.

(** ** Computations that only create and write *)

Create HintDb fs_only discriminated.

Lemma fs_only_ret {A : Type} (a : A) : fs_only (mret a : IO A).
Proof. intros w. exists []. simpl. by rewrite app_nil_r. Qed.

Lemma fs_only_throw {A : Type} (e : Effect) : fs_only (throw e : IO A).
Proof. intros w. exists []. simpl. by rewrite app_nil_r. Qed.

Lemma fs_only_emit ev :
  (forall e ok, ev <> Sys e ok)
  -> (forall p data kept, ev <> Unfinished p data kept)
  -> fs_only (emit ev).
Proof.
  intros Hev Hk w. exists [ev]. simpl. repeat split; try done;
    destruct ev as [e ok|p data kept| | | |]; try done;
    first [by destruct (Hev e ok) | by destruct (Hk p data kept)].
Qed.

Lemma fs_only_spinner k text : fs_only (spinner k text).
Proof. by apply fs_only_emit. Qed.

Lemma fs_only_console_log text : fs_only (console_log text).
Proof. by apply fs_only_emit. Qed.

Lemma fs_only_step {A B : Type} (m : IO A) (w : World) evs1 evs2
    (r : Outcome B * World) :
  events (m w).2 = events w ++ evs1
  -> disk (m w).2 = replay evs1 (disk w)
  -> valid_trace (disk w) evs1
  -> stdin (m w).2 = stdin w
  -> events r.2 = events (m w).2 ++ evs2
  -> disk r.2 = replay evs2 (disk (m w).2)
  -> valid_trace (disk (m w).2) evs2
  -> stdin r.2 = stdin (m w).2
  -> exists evs, events r.2 = events w ++ evs
       /\ disk r.2 = replay evs (disk w)
       /\ valid_trace (disk w) evs
       /\ stdin r.2 = stdin w.
Proof.
  intros He1 Hd1 Hv1 Hs1 He2 Hd2 Hv2 Hs2. exists (evs1 ++ evs2).
  rewrite He2, He1, Hd2, Hd1, Hs2, Hs1, replay_app, valid_trace_app, app_assoc.
  rewrite Hd1 in Hv2. done.
Qed.

Lemma fs_only_bind {A B : Type} (m : IO A) (f : A -> IO B) :
  fs_only m -> (forall a, fs_only (f a)) -> fs_only (m ≫= f).
Proof.
  intros Hm Hf w. rewrite bind_unfold.
  destruct (Hm w) as (evs1 & He1 & Hd1 & Hv1 & Hs1).
  destruct (m w) as [[a|e|] w1] eqn:Hmw; simpl in *; [|by eauto|by eauto].
  destruct (Hf a w1) as (evs2 & He2 & Hd2 & Hv2 & Hs2).
  eapply (fs_only_step m w evs1 evs2 (f a w1)); rewrite ?Hmw; done.
Qed.

Lemma fs_only_try_catch {A : Type} (body : IO A) (handler : Effect -> IO A) :
  fs_only body -> (forall e, fs_only (handler e))
  -> fs_only (try_catch body handler).
Proof.
  intros Hm Hf w. unfold try_catch.
  destruct (Hm w) as (evs1 & He1 & Hd1 & Hv1 & Hs1).
  destruct (body w) as [[a|e|] w1] eqn:Hmw; simpl in *; [by eauto| |by eauto].
  destruct (Hf e w1) as (evs2 & He2 & Hd2 & Hv2 & Hs2).
  eapply (fs_only_step body w evs1 evs2 (handler e w1)); rewrite ?Hmw; done.
Qed.

Lemma fs_only_if {A : Type} (b : bool) (m1 m2 : IO A) :
  fs_only m1 -> fs_only m2 -> fs_only (if b then m1 else m2).
Proof. by destruct b. Qed.

#[export] Hint Resolve fs_only_ret fs_only_throw fs_only_spinner
  fs_only_console_log fs_only_bind fs_only_try_catch fs_only_if : fs_only.

Section RequestsOnly.
Context {host : Host}.

Lemma fs_only_ensureDir path : fs_only (ensureDir path).
Proof.
  intros w. unfold ensureDir.
  destruct (fs_fault (disk w) (EnsureDir path)) eqn:Hf; simpl.
  { exists [Sys (EnsureDir path) false]. done. }
  destruct (is_file (disk w !! path)) eqn:Hfile; simpl.
  - exists [Sys (EnsureDir path) false]. done.
  - exists [Sys (EnsureDir path) true]. done.
Qed.

Lemma fs_only_writeFile path data : fs_only (writeFile path data).
Proof.
  intros w. unfold writeFile.
  destruct (fs_fault (disk w) (WriteFile path data)) eqn:Hf; simpl.
  { exists [Sys (WriteFile path data) false]. done. }
  destruct (is_dir (disk w !! path)) eqn:Hdir; simpl.
  - exists [Sys (WriteFile path data) false]. done.
  - exists [Sys (WriteFile path data) true]. done.
Qed.

Lemma fs_only_promise_all writes : fs_only (promise_all writes).
Proof.
  intros w. destruct (promise_all_run writes w) as (evs & Hw & Hv & _).
  exists evs. rewrite Hw. done.
Qed.

End RequestsOnly.

#[export] Hint Resolve fs_only_ensureDir fs_only_writeFile
  fs_only_promise_all : fs_only.

Section ScaffoldFacts.
Context {paths : PathLib} {host : Host}.

Lemma fs_only_scaffold projectPath answers :
  fs_only (scaffold projectPath answers).
Proof.
  unfold scaffold, createProjectStructure, createPackageJson,
    createConfigFiles, createSourceFiles.
  repeat first
    [ apply fs_only_bind; [|intros ?]
    | apply fs_only_try_catch; [|intros ?]
    | apply fs_only_if
    | apply fs_only_promise_all; repeat constructor
    | solve [auto with fs_only] ].
Qed.

(** A successful scaffolding, as the log shows it. *)
Lemma scaffold_returned projectPath answers w w' :
  scaffold projectPath answers w = (Returned tt, w')
  -> exists evs, events w' = events w ++ evs
       /\ stdin w' = stdin w
       /\ disk w' = replay evs (disk w)
       /\ created_dirs evs
          = projectPath
            :: map (path_join projectPath) (subdirectories answers)
       /\ written_files evs = generated_files projectPath answers
       /\ commands evs = []
       /\ write_paths evs
          = map fst (generated_files projectPath answers)
       /\ unfinished_writes evs = [].
Proof.
  intros H.
  unfold scaffold, createProjectStructure, createPackageJson,
    createConfigFiles, createSourceFiles, subdirectories,
    generated_files in *.
  destruct (useRouter answers); run_returned H; log_returned.
Qed.


End ScaffoldFacts.

(** C5 (as amended).  A successful createProjectStructure creates the
    project directory itself and, under it, src, src/components,
    src/assets, src/styles and public, and src/pages as well exactly when
    the router was chosen; it creates no other directory, writes no file
    and runs no command. *)
Theorem createProjectStructure_creates {paths : PathLib} {host : Host}
    projectPath answers w w' :
  createProjectStructure projectPath answers w = (Returned tt, w')
  -> created_dirs (since w w')
     = projectPath :: map (path_join projectPath) (subdirectories answers)
     /\ subdirectories answers
        = ["src"; "src/components"; "src/assets"; "src/styles"; "public"]
          ++ (if useRouter answers then ["src/pages"] else [])
     /\ written_files (since w w') = []
     /\ commands (since w w') = []
     /\ disk w' = replay (since w w') (disk w).
Proof.
  intros H.
  apply createProjectStructure_returned in H
    as (evs & He & _ & Hd & Hdirs & Hfiles & Hcmds).
  rewrite (since_app _ _ _ He). done.
Qed.

Lemma createProjectStructure_creates_witness :
  let answers := mkAnswers "/work" "app" true false in
  let w := demoWorld [] in
  let w' := (@createProjectStructure slashPaths calmHost "/work/app"
               answers w).2 in
  @createProjectStructure slashPaths calmHost "/work/app" answers w
    = (Returned tt, w')
  /\ created_dirs (since w w')
     = ["/work/app"; "/work/app/src"; "/work/app/src/components";
        "/work/app/src/assets"; "/work/app/src/styles"; "/work/app/public";
        "/work/app/src/pages"].
Proof.
  intros answers w w'.
  assert (H : @createProjectStructure slashPaths calmHost "/work/app"
                answers w = (Returned tt, w')) by (vm_compute; reflexivity).
  split; [exact H|].
  exact (proj1 (@createProjectStructure_creates slashPaths calmHost
                  "/work/app" answers w w' H)).
Defined.

(** C5 as stated fails: the step also creates the project directory, which
    is not one of the listed sub-directories. *)
Lemma createProjectStructure_creates_root :
  let answers := mkAnswers "/work" "app" false false in
  let w := demoWorld [] in
  let r := @createProjectStructure slashPaths calmHost "/work/app"
             answers w in
  r.1 = Returned tt
  /\ created_dirs (since w r.2)
     = ["/work/app"; "/work/app/src"; "/work/app/src/components";
        "/work/app/src/assets"; "/work/app/src/styles"; "/work/app/public"]
  /\ created_dirs (since w r.2)
     <> map (@path_join slashPaths "/work/app")
          ["src"; "src/components"; "src/assets"; "src/styles"; "public"]
  /\ disk w !! "/work/app" = None
  /\ disk r.2 !! "/work/app" = Some Dir.
Proof. vm_compute. repeat split; discriminate. Qed.


(** ** The questions *)

Lemma input_loop_accepted validate default lines evs value rest :
  input_loop validate default lines = (evs, Some (value, rest))
  -> validate value = Accept /\ length rest < length lines.
Proof.
  revert evs. induction lines as [|line lines IH]; intros evs; simpl; [done|].
  destruct (validate (entered default line)) as [|msg] eqn:Hv.
  - intros [= _ <- <-]. split; [done | lia].
  - destruct (input_loop validate default lines) as [evs' r] eqn:Hl.
    intros [= _ ->]. destruct (IH evs' eq_refl) as [? ?]. split; [done | lia].
Qed.

Lemma prompt_input_returned message default validate w value w' :
  prompt_input message default validate w = (Returned value, w')
  -> validate value = Accept
     /\ disk w' = disk w
     /\ length (stdin w') < length (stdin w).
Proof.
  unfold prompt_input.
  destruct (input_loop validate default (stdin w)) as [evs [[v rest]|]] eqn:Hl;
    [|done].
  intros [= <- <-]. apply input_loop_accepted in Hl as [? ?]. done.
Qed.

Lemma prompt_input_not_thrown message default validate w e w' :
  prompt_input message default validate w <> (Thrown e, w').
Proof.
  unfold prompt_input.
  destruct (input_loop validate default (stdin w)) as [evs [[v rest]|]]; done.
Qed.

Lemma prompt_confirm_returned message default w b w' :
  prompt_confirm message default w = (Returned b, w')
  -> disk w' = disk w.
Proof.
  unfold prompt_confirm. destruct (stdin w); [done|]. by intros [= _ <-].
Qed.

Lemma get_disk_bind {B : Type} (f : gmap string Node -> IO B) w :
  (get_disk ≫= f) w = f (disk w) w.
Proof. reflexivity. Qed.

Lemma emit_bind {B : Type} ev (f : unit -> IO B) w :
  (emit ev ≫= f) w = f tt (mkWorld (disk w) (stdin w) (events w ++ [ev])).
Proof. reflexivity. Qed.

Section NameLoop.
Context {paths : PathLib}.

(** Whatever the fuel, a name that comes out of the loop passed the
    validator and names a path that is not on the disk. *)
Lemma nameLoop_returned fuel location default w name projectPath w' :
  nameLoop fuel location default w = (Returned (name, projectPath), w')
  -> projectPath = path_join location name
     /\ existsSync (disk w') projectPath = false
     /\ validateProjectName name = Accept
     /\ disk w' = disk w.
Proof.
  revert w. induction fuel as [|fuel IH]; intros w H; [done|].
  cbn [nameLoop] in H.
  apply bind_returned in H as (name0 & w1 & Hp & H).
  apply prompt_input_returned in Hp as (Hv & Hd & _).
  apply bind_returned in H as (d & w2 & Hg & H).
  injection Hg as <- <-.
  destruct (existsSync (disk w1) (path_join location name0)) eqn:Hex.
  - apply bind_returned in H as (u & w3 & Hc & H).
    apply emit_returned in Hc. subst w3.
    apply IH in H as (? & ? & ? & Hd'). simpl in Hd'.
    repeat split; try done. congruence.
  - injection H as <- <- <-. done.
Qed.

(** More fuel than pending lines is as good as any larger amount. *)
Lemma nameLoop_fuel n m location default w :
  length (stdin w) < n -> length (stdin w) < m
  -> nameLoop n location default w = nameLoop m location default w.
Proof.
  revert m w. induction n as [|n IH]; intros [|m] w Hn Hm; try lia.
  cbn [nameLoop]. rewrite !bind_unfold.
  destruct (prompt_input "What is your project name?" default
              validateProjectName w) as [[name0|e|] w1] eqn:Hp; try done.
  apply prompt_input_returned in Hp as (_ & _ & Hlen).
  rewrite !get_disk_bind.
  destruct (existsSync (disk w1) (path_join location name0)); [|done].
  unfold console_log. rewrite !emit_bind. apply IH; simpl; lia.
Qed.

(** One turn of the loop on a line the validator accepts: a name whose
    path exists brings the message and the question again, on the rest of
    the input; a name whose path is free ends the loop. *)
Lemma askProjectName_turn location default w line rest :
  stdin w = line :: rest
  -> validateProjectName (entered default line) = Accept
  -> askProjectName location default w
     = if existsSync (disk w) (path_join location (entered default line))
       then askProjectName location default
              (mkWorld (disk w) rest
                 (events w
                  ++ [Asked "What is your project name?";
                      ConsoleLog (collisionMessage (entered default line))]))
       else (Returned (entered default line,
                       path_join location (entered default line)),
             mkWorld (disk w) rest
               (events w ++ [Asked "What is your project name?"])).
Proof.
  intros Hin Hv. unfold askProjectName. rewrite Hin.
  cbn [nameLoop length]. rewrite bind_unfold.
  unfold prompt_input. rewrite Hin. cbn [input_loop]. rewrite Hv.
  rewrite get_disk_bind. cbn [disk].
  destruct (existsSync (disk w)
              (path_join location (entered default line))); [|done].
  unfold console_log. rewrite emit_bind. cbn [disk stdin events length].
  by rewrite <- app_assoc.
Qed.

End NameLoop.

Section AskFacts.
Context {paths : PathLib}.

Lemma input_loop_usable d location default lines :
  Exists (usable d location default) lines
  -> exists evs value rest,
       input_loop validateProjectName default lines
       = (evs, Some (value, rest))
       /\ (existsSync d (path_join location value) = false
           \/ Exists (usable d location default) rest).
Proof.
  induction lines as [|line lines IH]; intros Hex; [by inversion Hex|].
  cbn [input_loop].
  destruct (validateProjectName (entered default line)) as [|msg] eqn:Hv.
  - exists [], (entered default line), lines. split; [done|].
    apply Exists_cons in Hex as [[_ Hfree]|Hex]; [by left | by right].
  - apply Exists_cons in Hex as [[Hacc _]|Hex]; [congruence|].
    destruct (IH Hex) as (evs & value & rest & -> & Hor). eauto.
Qed.

Lemma nameLoop_returns fuel location default w :
  length (stdin w) < fuel
  -> Exists (usable (disk w) location default) (stdin w)
  -> exists name projectPath w',
       nameLoop fuel location default w = (Returned (name, projectPath), w').
Proof.
  revert w. induction fuel as [|fuel IH]; intros w Hlen Hex; [lia|].
  cbn [nameLoop]. rewrite bind_unfold.
  destruct (input_loop_usable _ _ _ _ Hex) as (evs & value & rest & Hl & Hor).
  unfold prompt_input. rewrite Hl. rewrite get_disk_bind. cbn [disk].
  destruct (existsSync (disk w) (path_join location value)) eqn:Hx.
  - destruct Hor as [|Hrest]; [congruence|].
    unfold console_log. rewrite emit_bind. apply IH; cbn [stdin disk]; [|done].
    apply input_loop_accepted in Hl as [_ ?]. lia.
  - eauto.
Qed.

Context {host : Host}.

(** What is known once the questions are answered. *)
Lemma ask_returned cliName w projectPath answers w1 :
  ask cliName w = (Returned (projectPath, answers), w1)
  -> validateLocation (disk w) (projectLocation answers) = Accept
     /\ validateProjectName (projectName answers) = Accept
     /\ projectPath
        = path_join (normalizeSlashes (projectLocation answers))
            (projectName answers)
     /\ existsSync (disk w1) projectPath = false
     /\ disk w1 = disk w.
Proof.
  intros H. unfold ask in H. rewrite get_disk_bind in H.
  apply bind_returned in H as (location & wa & Hloc & H).
  apply prompt_input_returned in Hloc as (Hvl & Hda & _).
  apply bind_returned in H as ([name path] & wb & Hname & H).
  apply nameLoop_returned in Hname as (-> & Hfree & Hvn & Hdb).
  apply bind_returned in H as (router & wc & Hr & H).
  apply prompt_confirm_returned in Hr.
  apply bind_returned in H as (install & wd & Hi & H).
  apply prompt_confirm_returned in Hi.
  injection H as <- <- <-. cbn [projectLocation projectName].
  repeat split; try done; congruence.
Qed.

(** The action is the questions followed by [build] on their answers. *)
Lemma action_builds cliName w projectPath answers w1 :
  ask cliName
    (mkWorld (disk w) (stdin w)
       (events w ++ [ConsoleLog "Welcome to Joji App Creator!"]))
  = (Returned (projectPath, answers), w1)
  -> action cliName w = build projectPath answers w1.
Proof.
  intros H. unfold action, console_log. rewrite emit_bind.
  by rewrite (bind_after _ _ _ _ _ H).
Qed.

(** The single-pass variant ends on a collision: one message, no request. *)
Lemma IndexJs_action_guard cwd cliName w name wa location wb router w1 :
  prompt_input "What is your project name?" (defaultProjectName cliName)
    validateProjectName
    (mkWorld (disk w) (stdin w)
       (events w
        ++ [ConsoleLog
              (Str.nl +:+ "🚀 Welcome to Joji App Creator!" +:+ Str.nl)]))
  = (Returned name, wa)
  -> prompt_input "Where should we create this project?"
       "/c/Users/JojoW/Documents/Coding" (fun _ => Accept) wa
     = (Returned location, wb)
  -> prompt_confirm "Include React Router?" true wb = (Returned router, w1)
  -> existsSync (disk w1) (path_join cwd name) = true
  -> IndexJs.action cwd cliName w
     = (Returned tt,
        mkWorld (disk w1) (stdin w1)
          (events w1 ++ [ConsoleLog (IndexJs.collisionMessage name)])).
Proof.
  intros Hn Hl Hr Hx. unfold IndexJs.action, console_log.
  rewrite emit_bind, (bind_after _ _ _ _ _ Hn), (bind_after _ _ _ _ _ Hl),
    (bind_after _ _ _ _ _ Hr), get_disk_bind, Hx.
  reflexivity.
Qed.

End AskFacts.

(** C2.  In the name loop a name whose path exists brings the message and
    the question again on the rest of the input, and a name whose path is
    free ends the loop; the loop returns only a validated name whose path,
    the join of the location and the name, is not on the disk; it does
    return when some pending line is usable; and [build] starts on a disk
    where the project path does not exist. *)
Theorem name_collision_reprompts {paths : PathLib} {host : Host}
    (location default : string) (cliName : option string) :
  (forall w line rest,
     stdin w = line :: rest
     -> validateProjectName (entered default line) = Accept
     -> askProjectName location default w
        = if existsSync (disk w) (path_join location (entered default line))
          then askProjectName location default
                 (mkWorld (disk w) rest
                    (events w
                     ++ [Asked "What is your project name?";
                         ConsoleLog
                           (collisionMessage (entered default line))]))
          else (Returned (entered default line,
                          path_join location (entered default line)),
                mkWorld (disk w) rest
                  (events w ++ [Asked "What is your project name?"])))
  /\ (forall w name projectPath w',
        askProjectName location default w
        = (Returned (name, projectPath), w')
        -> projectPath = path_join location name
           /\ existsSync (disk w') projectPath = false
           /\ validateProjectName name = Accept
           /\ disk w' = disk w)
  /\ (forall w,
        Exists (usable (disk w) location default) (stdin w)
        -> exists name projectPath w',
             askProjectName location default w
             = (Returned (name, projectPath), w'))
  /\ (forall w projectPath answers w1,
        ask cliName
          (mkWorld (disk w) (stdin w)
             (events w ++ [ConsoleLog "Welcome to Joji App Creator!"]))
        = (Returned (projectPath, answers), w1)
        -> existsSync (disk w1) projectPath = false
           /\ disk w1 = disk w
           /\ action cliName w = build projectPath answers w1).
Proof.
  repeat split.
  - intros w line rest. apply askProjectName_turn.
  - by apply nameLoop_returned in H as (? & ? & ? & ?).
  - by apply nameLoop_returned in H as (? & ? & ? & ?).
  - by apply nameLoop_returned in H as (? & ? & ? & ?).
  - by apply nameLoop_returned in H as (? & ? & ? & ?).
  - intros w Hex. apply nameLoop_returns; [lia | done].
  - by apply ask_returned in H as (? & ? & ? & ? & ?).
  - by apply ask_returned in H as (? & ? & ? & ? & ?).
  - by apply action_builds.
Qed.

Lemma name_collision_reprompts_witness :
  let w := demoWorld ["Taken"; "taken"; "app"; "n"; "n"] in
  let r := @askProjectName slashPaths "/work" "my-react-app" w in
  r = (Returned ("app", "/work/app"), r.2)
  /\ existsSync (disk r.2) "/work/app" = false
  /\ existsSync (disk w) "/work/taken" = true.
Proof.
  intros w r.
  assert (H : r = (Returned ("app", "/work/app"), r.2))
    by (vm_compute; reflexivity).
  split; [exact H|]. split; [|vm_compute; reflexivity].
  exact (proj1 (proj2 (proj1 (proj2
           (@name_collision_reprompts slashPaths calmHost "/work"
              "my-react-app" None)) w "app" "/work/app" r.2 H))).
Defined.

(** C7.  Two scaffoldings that both succeed, with the same project path
    and the same answers, on any two disks and hosts, create the same
    directories and write the same files with the same bytes; the files
    are a function of the path, the project name and the router choice;
    with pairwise distinct paths they are on the disk afterwards as
    written; and the project path is itself a function of the answers.
    Without the success of both runs, and for what the child processes
    add, this fails, as the runs after the witness show. *)
Theorem scaffold_deterministic {paths : PathLib} (host1 host2 : Host)
    projectPath answers w1 w1' w2 w2' :
  @scaffold paths host1 projectPath answers w1 = (Returned tt, w1')
  -> @scaffold paths host2 projectPath answers w2 = (Returned tt, w2')
  -> written_files (since w1 w1') = generated_files projectPath answers
     /\ written_files (since w2 w2') = written_files (since w1 w1')
     /\ created_dirs (since w2 w2') = created_dirs (since w1 w1')
     /\ generated_files projectPath answers
        = generated_files projectPath
            (mkAnswers EmptyString (projectName answers) (useRouter answers)
               false)
     /\ (NoDup (map fst (generated_files projectPath answers))
         -> forall p data, (p, data) ∈ generated_files projectPath answers
            -> disk w1' !! p = Some (File data)
               /\ disk w2' !! p = Some (File data))
     /\ (forall cli1 cli2 wa wb wa' wb' path1 path2 given,
           @ask paths cli1 wa = (Returned (path1, given), wa')
           -> @ask paths cli2 wb = (Returned (path2, given), wb')
           -> path1 = path2).
Proof.
  intros H1 H2.
  pose proof (@fs_only_scaffold paths host1 projectPath answers w1)
    as (evs1' & He1' & Hd1' & Hv1 & _).
  pose proof (@fs_only_scaffold paths host2 projectPath answers w2)
    as (evs2' & He2' & Hd2' & Hv2 & _).
  rewrite H1 in He1', Hd1'. rewrite H2 in He2', Hd2'. simpl in *.
  apply scaffold_returned in H1
    as (evs1 & He1 & _ & Hd1 & Hdir1 & Hf1 & _ & Hp1 & _).
  apply scaffold_returned in H2
    as (evs2 & He2 & _ & Hd2 & Hdir2 & Hf2 & _ & Hp2 & _).
  assert (evs1' = evs1) as -> by (rewrite He1 in He1'; by simplify_list_eq).
  assert (evs2' = evs2) as -> by (rewrite He2 in He2'; by simplify_list_eq).
  rewrite (since_app _ _ _ He1), (since_app _ _ _ He2).
  rewrite Hf1, Hf2, Hdir1, Hdir2. repeat split; try done.
  - rewrite Hd1. apply replay_written_data; by rewrite ?Hf1, ?Hp1.
  - rewrite Hd2. apply replay_written_data; by rewrite ?Hf2, ?Hp2.
  - intros cli1 cli2 wa wb wa' wb' path1 path2 given Ha Hb.
    apply ask_returned in Ha as (_ & _ & -> & _).
    apply ask_returned in Hb as (_ & _ & -> & _). done.
Qed.

Lemma scaffold_deterministic_witness :
  let answers := mkAnswers "/work" "app" true true in
  let host2 := hostWith ["git init"] [] in
  let w1 := demoWorld [] in
  let w2 := mkWorld ∅ ["left over"] [ConsoleLog "earlier"] in
  let w1' := (@scaffold slashPaths calmHost "/work/app" answers w1).2 in
  let w2' := (@scaffold slashPaths host2 "/work/app" answers w2).2 in
  (@scaffold slashPaths calmHost "/work/app" answers w1 = (Returned tt, w1')
   /\ @scaffold slashPaths host2 "/work/app" answers w2 = (Returned tt, w2'))
  /\ written_files (since w2 w2') = written_files (since w1 w1').
Proof.
  intros answers host2 w1 w2 w1' w2'.
  assert (H1 : @scaffold slashPaths calmHost "/work/app" answers w1
               = (Returned tt, w1')) by (vm_compute; reflexivity).
  assert (H2 : @scaffold slashPaths host2 "/work/app" answers w2
               = (Returned tt, w2')) by (vm_compute; reflexivity).
  split; [by split|].
  exact (proj1 (proj2 (@scaffold_deterministic slashPaths calmHost host2
                         "/work/app" answers w1 w1' w2 w2' H1 H2))).
Defined.

(** C7 as stated, for any two runs and the whole tree, fails.  The same
    answers on the same disk, under three hosts: where nothing
    fails; where one source file cannot be written; where npm install
    leaves its directory.  The files written differ, a file that one run
    holds complete is missing in the other, and the trees of two runs
    that both succeed differ by what the child process added. *)
Lemma same_answers_different_trees :
  let answers := mkAnswers "/work" "app" false true in
  let w := demoWorld [] in
  let faulty := hostWith [] ["/work/app/src/App.jsx"] in
  let r1 := @build slashPaths calmHost "/work/app" answers w in
  let r2 := @build slashPaths faulty "/work/app" answers w in
  let r3 := @build slashPaths npmHost "/work/app" answers w in
  written_files (since w r2.2) <> written_files (since w r1.2)
  /\ (disk r1.2 !! "/work/app/src/App.jsx" = Some (File (appJsx answers))
      /\ disk r2.2 !! "/work/app/src/App.jsx" = None)
  /\ (r1.1 = Returned tt /\ r3.1 = Returned tt
      /\ written_files (since w r3.2) = written_files (since w r1.2)
      /\ disk r1.2 !! "/work/app/node_modules" = None
      /\ disk r3.2 !! "/work/app/node_modules" = Some Dir).
Proof.
  intros answers w faulty r1 r2 r3. split.
  - intros H. apply (f_equal length) in H. vm_compute in H. discriminate H.
  - vm_compute. repeat split.
Qed.

(** ** The location *)

Lemma normalizeSlashes_length input :
  String.length (normalizeSlashes input) = String.length input.
Proof.
  unfold normalizeSlashes. induction input as [|c s IH]; simpl; congruence.
Qed.

(** No backslash is left, and every other character is where it was. *)
Lemma normalizeSlashes_chars input :
  Str.chars (normalizeSlashes input)
  = map (fun c => if Ascii.eqb c Str.backslash then "/"%char else c)
      (Str.chars input).
Proof.
  unfold normalizeSlashes. induction input as [|c s IH]; simpl; congruence.
Qed.

Lemma normalizeSlashes_no_backslash input :
  Str.backslash ∉ Str.chars (normalizeSlashes input).
Proof.
  rewrite normalizeSlashes_chars. intros Hin.
  apply list_elem_of_fmap in Hin as (c & Hc & _).
  destruct (Ascii.eqb c Str.backslash) eqn:He; [done|].
  apply Ascii.eqb_neq in He. congruence.
Qed.

(** The location validator accepts whatever exists at the normalized
    path. *)
Lemma validateLocation_spec d input :
  validateLocation d input = Accept
  <-> is_Some (d !! normalizeSlashes input).
Proof.
  unfold validateLocation, existsSync.
  destruct (d !! normalizeSlashes input) as [n|]; split; try done.
Qed.

(** C9 (the code at the failing input).  The location validator accepts
    a path at which there is a regular file and no directory, and the
    questions go on to a project path below that file. *)
Theorem validateLocation_accepts_file :
  validateLocation demoDisk "\work\notes.txt" = Accept
  /\ normalizeSlashes "\work\notes.txt" = "/work/notes.txt"
  /\ demoDisk !! "/work/notes.txt" = Some (File "todo")
  /\ is_dir (demoDisk !! normalizeSlashes "\work\notes.txt") = false
  /\ (@ask slashPaths None
        (demoWorld ["\work\notes.txt"; "app"; "n"; "n"])).1
     = Returned ("/work/notes.txt/app",
                 mkAnswers "\work\notes.txt" "app" false false).
Proof. vm_compute. repeat split. Qed.

(** ** Install and git *)

Lemma commands_app evs1 evs2 :
  commands (evs1 ++ evs2) = commands evs1 ++ commands evs2.
Proof. apply omap_app. Qed.

Section FinishFacts.
Context {paths : PathLib} {host : Host}.

Lemma execAsync_run command cwd w :
  execAsync command cwd w
  = (if (spawn command cwd (disk w)).1 then Returned tt
     else Thrown (Exec command cwd),
     mkWorld (spawn command cwd (disk w)).2 (stdin w)
       (events w
        ++ [Sys (Exec command cwd) (spawn command cwd (disk w)).1])).
Proof. unfold execAsync. by destruct (spawn command cwd (disk w)). Qed.

(** installDependencies rethrows what [npm install] throws. *)
Lemma installDependencies_run projectPath w :
  installDependencies projectPath w
  = let s := spawn "npm install" projectPath (disk w) in
    if s.1
    then (Returned tt,
          mkWorld s.2 (stdin w)
            (events w
             ++ [Spinner Start
                   "Installing dependencies (this may take a minute)...";
                 Sys (Exec "npm install" projectPath) true;
                 Spinner Succeed "Dependencies installed"]))
    else (Thrown (Exec "npm install" projectPath),
          mkWorld s.2 (stdin w)
            (events w
             ++ [Spinner Start
                   "Installing dependencies (this may take a minute)...";
                 Sys (Exec "npm install" projectPath) false;
                 Spinner Fail "Failed to install dependencies"])).
Proof.
  unfold installDependencies, spinner, try_catch. rewrite emit_bind.
  rewrite bind_unfold, execAsync_run. cbn [disk stdin events].
  destruct (spawn "npm install" projectPath (disk w)) as [[|] d];
    cbn [fst snd]; rewrite ?emit_bind; cbn [emit throw disk stdin events];
    by rewrite <- ?app_assoc.
Qed.

(** initializeGit never throws: it returns with the log of what it started,
    and a warning in it when a command failed. *)
Lemma initializeGit_run projectPath w :
  exists evs w',
    initializeGit projectPath w = (Returned tt, w')
    /\ events w' = events w ++ evs
    /\ stdin w' = stdin w
    /\ commands evs = gitAttempts projectPath (disk w)
    /\ (ConsoleLog successMessage ∉ evs)
    /\ (forall command cwd, Sys (Exec command cwd) false ∈ evs
        -> Spinner Warn "Could not initialize git (this is okay!)" ∈ evs).
Proof.
  unfold initializeGit, gitAttempts, spinner, try_catch.
  rewrite emit_bind, bind_unfold, execAsync_run. cbn [disk stdin events].
  destruct (spawn "git init" projectPath (disk w)) as [[|] d1];
    cbn [fst snd].
  2: { eexists _, _. split; [reflexivity|]. cbn [events stdin emit].
       rewrite <- ?app_assoc. cbn [app]. split; [reflexivity|].
       split; [reflexivity|]. split; [reflexivity|]. split.
       - rewrite !not_elem_of_cons. repeat split; try done. apply not_elem_of_nil.
       - intros _ _ _. rewrite !elem_of_cons. auto. }
  rewrite bind_unfold, execAsync_run. cbn [disk stdin events].
  destruct (spawn "git add ." projectPath d1) as [[|] d2]; cbn [fst snd].
  2: { eexists _, _. split; [reflexivity|]. cbn [events stdin emit].
       rewrite <- ?app_assoc. cbn [app]. split; [reflexivity|].
       split; [reflexivity|]. split; [reflexivity|]. split.
       - rewrite !not_elem_of_cons. repeat split; try done. apply not_elem_of_nil.
       - intros _ _ _. rewrite !elem_of_cons. auto 10. }
  rewrite bind_unfold, execAsync_run. cbn [disk stdin events].
  destruct (spawn gitCommit projectPath d2) as [[|] d3]; cbn [fst snd].
  - cbn [emit disk stdin events]. eexists _, _. split; [reflexivity|].
    cbn [events stdin emit].
    rewrite <- ?app_assoc. cbn [app]. split; [reflexivity|].
    split; [reflexivity|]. split; [reflexivity|]. split.
    + rewrite !not_elem_of_cons. repeat split; try done. apply not_elem_of_nil.
    + intros command cwd. rewrite !elem_of_cons, elem_of_nil.
      intros [?|[?|[?|[?|[?|?]]]]]; done.
  - eexists _, _. split; [reflexivity|]. cbn [events stdin emit].
    rewrite <- ?app_assoc. cbn [app]. split; [reflexivity|].
    split; [reflexivity|]. split; [reflexivity|]. split.
    + rewrite !not_elem_of_cons. repeat split; try done. apply not_elem_of_nil.
    + intros _ _ _. rewrite !elem_of_cons. auto 10.
Qed.

Lemma ret_bind {A B : Type} (a : A) (f : A -> IO B) w :
  (mret a ≫= f) w = f a w.
Proof. reflexivity. Qed.

(** The closing messages, after git returned in [w1]. *)
Lemma closing_messages (answers : Answers) w1 :
  exists logs,
    (console_log successMessage;;
     console_log ("To get started:" +:+ Str.nl);;
     console_log ("  cd " +:+ projectName answers);;
     (if negb (installNow answers) then console_log "  npm install"
      else mret tt);;
     console_log ("  npm run dev" +:+ Str.nl);;
     console_log "Happy coding!!!") w1
    = (Returned tt, mkWorld (disk w1) (stdin w1) (events w1 ++ logs))
    /\ ConsoleLog successMessage ∈ logs
    /\ commands logs = []
    /\ (forall e ok, Sys e ok ∉ logs).
Proof.
  unfold console_log. rewrite !emit_bind.
  destruct (installNow answers);
    [change (negb true) with false | change (negb false) with true];
    cbv iota; repeat (rewrite emit_bind || rewrite ret_bind);
    unfold emit; cbn [disk stdin events];
    rewrite <- ?app_assoc; cbn [app];
    (eexists; split; [reflexivity|]; split; [apply list_elem_of_here|];
     split; [reflexivity|]; intros e ok;
     rewrite !not_elem_of_cons; repeat split; try done;
     apply not_elem_of_nil).
Qed.

(** What [finish] does, by whether an install was asked for and failed. *)
Lemma finish_run projectPath answers w :
  let s := spawn "npm install" projectPath (disk w) in
  if installNow answers && negb s.1
  then finish projectPath answers w
       = (Thrown (Exec "npm install" projectPath),
          mkWorld s.2 (stdin w)
            (events w
             ++ [Spinner Start
                   "Installing dependencies (this may take a minute)...";
                 Sys (Exec "npm install" projectPath) false;
                 Spinner Fail "Failed to install dependencies"]))
  else exists evs w',
         finish projectPath answers w = (Returned tt, w')
         /\ events w' = events w ++ evs
         /\ commands evs
            = (if installNow answers then ["npm install"] else [])
              ++ gitAttempts projectPath
                   (if installNow answers then s.2 else disk w)
         /\ ConsoleLog successMessage ∈ evs
         /\ (forall command cwd, Sys (Exec command cwd) false ∈ evs
             -> Spinner Warn "Could not initialize git (this is okay!)"
                ∈ evs).
Proof.
  intros s. subst s. unfold finish.
  destruct (installNow answers) eqn:Hi; cbn [andb].
  - rewrite bind_unfold, installDependencies_run. cbv zeta.
    destruct (spawn "npm install" projectPath (disk w)) as [[|] d];
      cbn [fst snd negb]; [|done].
    rewrite bind_unfold.
    match goal with
    | |- context [initializeGit projectPath ?w1] =>
        destruct (initializeGit_run projectPath w1)
          as (evs & w' & Hg & He & Hs & Hc & Hn & Hw)
    end.
    rewrite Hg.
    destruct (closing_messages answers w') as (logs & Hl & Hin & Hcl & Hnl).
    rewrite Hi in Hl.
    eexists _, _. split; [exact Hl|]. cbn [events disk] in *.
    rewrite He, <- !app_assoc. split; [reflexivity|].
    rewrite !commands_app, Hcl, app_nil_r, Hc.
    split; [reflexivity|]. split.
    + rewrite !elem_of_app. auto.
    + intros command cwd. rewrite !elem_of_app, !elem_of_cons, elem_of_nil.
      intros [[?|[?|[?|?]]]|[Hf|Hf]]; try done.
      * right. left. by eapply Hw.
      * by apply Hnl in Hf.
  - rewrite ret_bind.
    destruct (initializeGit_run projectPath w)
      as (evs & w' & Hg & He & Hs & Hc & Hn & Hw).
    rewrite bind_unfold, Hg.
    destruct (closing_messages answers w') as (logs & Hl & Hin & Hcl & Hnl).
    rewrite Hi in Hl.
    eexists _, _. split; [exact Hl|]. cbn [events disk] in *.
    rewrite He, <- !app_assoc. split; [reflexivity|].
    rewrite commands_app, Hcl, app_nil_r.
    split; [done|]. split.
    + rewrite elem_of_app. auto.
    + intros command cwd. rewrite !elem_of_app.
      intros [Hf|Hf].
      * left. by eapply Hw.
      * by apply Hnl in Hf.
Qed.

End FinishFacts.

(** C6 (as amended).  After the scaffolding, [npm install] is started
    exactly when the user chose to install now; the git commands are
    started whatever the answers are, [git init] first and each next one
    after the one before succeeded, unless a chosen install failed. *)
Theorem install_optional_git_always {paths : PathLib} {host : Host}
    projectPath answers w0 w :
  scaffold projectPath answers w0 = (Returned tt, w)
  -> let s := spawn "npm install" projectPath (disk w) in
     let w' := (build projectPath answers w0).2 in
     commands (since w w')
     = (if installNow answers
        then "npm install"
             :: (if s.1 then gitAttempts projectPath s.2 else [])
        else gitAttempts projectPath (disk w))
     /\ ("npm install" ∈ commands (since w w')
         <-> installNow answers = true)
     /\ (installNow answers = false \/ s.1 = true
         -> "git init" ∈ commands (since w w')).
Proof.
  intros H s w'. subst w'. unfold build.
  rewrite (bind_after _ _ _ _ _ H).
  pose proof (finish_run projectPath answers w) as Hf. cbv zeta in Hf.
  fold s in Hf.
  assert (Hgit : forall d, "npm install" ∉ gitAttempts projectPath d).
  { intros d. unfold gitAttempts.
    destruct (spawn "git init" projectPath d).1;
      [destruct (spawn "git add ." projectPath _).1|];
      rewrite !not_elem_of_cons; repeat split; try done;
      apply not_elem_of_nil. }
  assert (Hinit : forall d, "git init" ∈ gitAttempts projectPath d).
  { intros d. apply list_elem_of_here. }
  destruct (installNow answers) eqn:Hi; cbn [andb] in Hf.
  - destruct s.1 eqn:Hok; cbn [negb] in Hf.
    + destruct Hf as (evs & w' & -> & He & Hc & _). cbn [snd].
      rewrite (since_app _ _ _ He), Hc. cbn [app].
      repeat split; try done.
      * intros _. apply list_elem_of_here.
      * intros _. apply list_elem_of_further, Hinit.
    + rewrite Hf. cbn [snd]. erewrite since_app by reflexivity.
      repeat split; try done.
      * intros _. apply list_elem_of_here.
      * intros [?|?]; done.
  - destruct Hf as (evs & w' & -> & He & Hc & _). cbn [snd].
    rewrite (since_app _ _ _ He), Hc. cbn [app].
    repeat split; try done.
    + intros Hin. by apply Hgit in Hin.
Qed.

Lemma install_optional_git_always_witness :
  let answers := mkAnswers "/work" "app" false false in
  let w0 := demoWorld [] in
  let w := (@scaffold slashPaths calmHost "/work/app" answers w0).2 in
  let w' := (@build slashPaths calmHost "/work/app" answers w0).2 in
  @scaffold slashPaths calmHost "/work/app" answers w0 = (Returned tt, w)
  /\ commands (since w w')
     = @gitAttempts calmHost "/work/app" (disk w).
Proof.
  intros answers w0 w w'.
  assert (H : @scaffold slashPaths calmHost "/work/app" answers w0
              = (Returned tt, w)) by (vm_compute; reflexivity).
  split; [exact H|].
  exact (proj1 (@install_optional_git_always slashPaths calmHost
                  "/work/app" answers w0 w H)).
Defined.

(** C6 as stated fails: with every yes/no question answered no, and no
    question about version control asked, the three git commands are
    started all the same. *)
Lemma git_runs_without_any_choice :
  let r := @action slashPaths calmHost None
             (demoWorld ["/work"; "app"; "n"; "n"]) in
  r.1 = Returned tt
  /\ questions (events r.2)
     = ["Where should we create this project?";
        "What is your project name?";
        "Include React Router?";
        "Install dependencies now?"]
  /\ stdin r.2 = []
  /\ commands (events r.2) = ["git init"; "git add ."; gitCommit]
  /\ disk r.2 !! "/work/app/src/pages" = None.
Proof. vm_compute. repeat split. Qed.

(** C10.  initializeGit never throws.  After the scaffolding, a chosen
    install that fails is thrown out of [build], with no success message
    and no git command; in every other case [build] returns and logs the
    success message, and a failed command in its log (then a git command)
    comes with the warning. *)
Theorem git_failure_swallowed_install_failure_thrown
    {paths : PathLib} {host : Host} projectPath answers w0 w :
  scaffold projectPath answers w0 = (Returned tt, w)
  -> let s := spawn "npm install" projectPath (disk w) in
     let r := build projectPath answers w0 in
     (forall w1, (initializeGit projectPath w1).1 = Returned tt)
     /\ (if installNow answers && negb s.1
         then r.1 = Thrown (Exec "npm install" projectPath)
              /\ (ConsoleLog successMessage ∉ since w r.2)
              /\ commands (since w r.2) = ["npm install"]
         else r.1 = Returned tt
              /\ ConsoleLog successMessage ∈ since w r.2
              /\ (forall command cwd,
                    Sys (Exec command cwd) false ∈ since w r.2
                    -> Spinner Warn "Could not initialize git (this is okay!)"
                       ∈ since w r.2)).
Proof.
  intros H s r. subst r. unfold build.
  rewrite (bind_after _ _ _ _ _ H). split.
  { intros w1.
    destruct (initializeGit_run projectPath w1) as (evs & w' & -> & _).
    done. }
  pose proof (finish_run projectPath answers w) as Hf. cbv zeta in Hf.
  fold s in Hf.
  destruct (installNow answers && negb s.1).
  - rewrite Hf. cbn [fst snd]. erewrite since_app by reflexivity.
    repeat split; try done.
    rewrite !not_elem_of_cons. repeat split; try done. apply not_elem_of_nil.
  - destruct Hf as (evs & w' & -> & He & _ & Hin & Hw). cbn [fst snd].
    rewrite (since_app _ _ _ He). done.
Qed.

Lemma git_failure_swallowed_install_failure_thrown_witness :
  let answers := mkAnswers "/work" "app" true true in
  let host := hostWith ["git add ."] [] in
  let w0 := demoWorld [] in
  let w := (@scaffold slashPaths host "/work/app" answers w0).2 in
  let r := @build slashPaths host "/work/app" answers w0 in
  @scaffold slashPaths host "/work/app" answers w0 = (Returned tt, w)
  /\ r.1 = Returned tt
  /\ ConsoleLog successMessage ∈ since w r.2
  /\ Sys (Exec "git add ." "/work/app") false ∈ since w r.2.
Proof.
  intros answers host w0 w r.
  assert (H : @scaffold slashPaths host "/work/app" answers w0
              = (Returned tt, w)) by (vm_compute; reflexivity).
  split; [exact H|].
  pose proof (proj2 (@git_failure_swallowed_install_failure_thrown
                       slashPaths host "/work/app" answers w0 w H)) as Hb.
  cbv zeta in Hb.
  change (installNow answers
          && negb (@spawn host "npm install" "/work/app" (disk w)).1)
    with false in Hb.
  destruct Hb as (Hr & Hs & _). split; [exact Hr|]. split; [exact Hs|].
  vm_compute. repeat constructor.
Defined.

(** A failed install on a concrete run: thrown, no success message, git
    never started. *)
Example install_failure_aborts :
  let answers := mkAnswers "/work" "app" true true in
  let host := hostWith ["npm install"] [] in
  let r := @action slashPaths host None
             (demoWorld ["/work"; "app"; "y"; "y"]) in
  r.1 = Thrown (Exec "npm install" "/work/app")
  /\ commands (events r.2) = ["npm install"]
  /\ last (events r.2) = Some (Spinner Fail "Failed to install dependencies")
  /\ disk r.2 !! "/work/app/package.json"
     = Some (File (packageJsonText answers)).
Proof. vm_compute. repeat split. Qed.

(** ** What every run logs *)

Lemma bind_thrown {A B : Type} (m : IO A) (f : A -> IO B) w e w' :
  (m ≫= f) w = (Thrown e, w')
  -> m w = (Thrown e, w')
     \/ exists a w1, m w = (Returned a, w1) /\ f a w1 = (Thrown e, w').
Proof.
  rewrite bind_unfold. destruct (m w) as [[a|e1|] w1]; [eauto | | done].
  intros [= -> ->]. by left.
Qed.

Lemma logs_ret (P : Event -> Prop) {A : Type} (a : A) :
  logs P (mret a : IO A).
Proof.
  intros w. exists []. cbn [fst snd mret IO_ret].
  split; [by rewrite app_nil_r|].
  split; [constructor | intros e He; discriminate He].
Qed.

Lemma logs_emit (P : Event -> Prop) ev : P ev -> logs P (emit ev).
Proof.
  intros H w. exists [ev]. cbn [fst snd emit events].
  split; [done|].
  split; [by repeat constructor | intros e He; discriminate He].
Qed.

Lemma logs_spinner (P : Event -> Prop) k text :
  P (Spinner k text) -> logs P (spinner k text).
Proof. apply logs_emit. Qed.

Lemma logs_console_log (P : Event -> Prop) text :
  P (ConsoleLog text) -> logs P (console_log text).
Proof. apply logs_emit. Qed.

Lemma logs_bind (P : Event -> Prop) {A B : Type} (m : IO A)
    (f : A -> IO B) :
  logs P m -> (forall a, logs P (f a)) -> logs P (m ≫= f).
Proof.
  intros Hm Hf w. rewrite bind_unfold.
  destruct (Hm w) as (evs1 & He1 & HP1 & Ht1).
  destruct (m w) as [[a|e|] w1] eqn:Hmw; simpl in *.
  - destruct (Hf a w1) as (evs2 & He2 & HP2 & Ht2).
    exists (evs1 ++ evs2). rewrite He2, He1, app_assoc.
    split; [done|]. split; [by apply Forall_app|].
    intros e He. apply elem_of_app. right. by apply Ht2.
  - exists evs1. split; [done|]. split; [done|].
    intros e' [= <-]. by apply Ht1.
  - exists evs1. split; [done|]. split; [done|]. intros e' [=].
Qed.

(** A handler that reports and rethrows. *)
Lemma logs_try_rethrow (P : Event -> Prop) {A : Type} (body : IO A) text :
  logs P body -> P (Spinner Fail text)
  -> logs P (try_catch body (fun error => spinner Fail text;; throw error)).
Proof.
  intros Hm HP w. unfold try_catch.
  destruct (Hm w) as (evs1 & He1 & HP1 & Ht1).
  destruct (body w) as [[a|e|] w1] eqn:Hmw; simpl in *;
    [exists evs1; split; [assumption|]; split; assumption | | exists evs1; split; [assumption|]; split; assumption].
  exists (evs1 ++ [Spinner Fail text]). rewrite He1, app_assoc.
  split; [done|]. split; [apply Forall_app; split; [done | by constructor]|].
  intros e' [= <-]. apply elem_of_app. left. by apply Ht1.
Qed.

(** A handler that warns and goes on. *)
Lemma logs_try_swallow (P : Event -> Prop) (body : IO unit) text :
  logs P body -> P (Spinner Warn text)
  -> logs P (try_catch body (fun error => spinner Warn text)).
Proof.
  intros Hm HP w. unfold try_catch.
  destruct (Hm w) as (evs1 & He1 & HP1 & Ht1).
  destruct (body w) as [[a|e|] w1] eqn:Hmw; simpl in *;
    [exists evs1; split; [assumption|]; split; assumption | | exists evs1; split; [assumption|]; split; assumption].
  exists (evs1 ++ [Spinner Warn text]). rewrite He1, app_assoc.
  split; [done|]. split; [apply Forall_app; split; [done | by constructor]|].
  done.
Qed.

Lemma logs_if (P : Event -> Prop) {A : Type} (b : bool) (m1 m2 : IO A) :
  logs P m1 -> logs P m2 -> logs P (if b then m1 else m2).
Proof. by destruct b. Qed.

Section LogsRequests.
Context {host : Host}.

Lemma logs_ensureDir (P : Event -> Prop) path :
  (forall ok, P (Sys (EnsureDir path) ok)) -> logs P (ensureDir path).
Proof.
  intros HP w. unfold ensureDir.
  destruct (fs_fault (disk w) (EnsureDir path) || is_file (disk w !! path)).
  - exists [Sys (EnsureDir path) false]. simpl.
    repeat split; [by constructor|]. intros e [= <-]. apply list_elem_of_here.
  - exists [Sys (EnsureDir path) true]. simpl.
    repeat split; [by constructor|done].
Qed.

Lemma logs_writeFile (P : Event -> Prop) path data :
  (forall ok, P (Sys (WriteFile path data) ok))
  -> logs P (writeFile path data).
Proof.
  intros HP w. unfold writeFile.
  destruct (fs_fault (disk w) (WriteFile path data)
            || is_dir (disk w !! path)).
  - exists [Sys (WriteFile path data) false]. simpl.
    repeat split; [by constructor|]. intros e [= <-]. apply list_elem_of_here.
  - exists [Sys (WriteFile path data) true]. simpl.
    repeat split; [by constructor|done].
Qed.

Lemma logs_execAsync (P : Event -> Prop) command cwd :
  (forall ok, P (Sys (Exec command cwd) ok))
  -> logs P (execAsync command cwd).
Proof.
  intros HP w. rewrite execAsync_run.
  destruct (spawn command cwd (disk w)) as [[|] d]; simpl.
  - exists [Sys (Exec command cwd) true].
    repeat split; [by constructor|done].
  - exists [Sys (Exec command cwd) false].
    repeat split; [by constructor|]. intros e [= <-]. apply list_elem_of_here.
Qed.

Lemma logs_promise_all (P : Event -> Prop) writes :
  Forall (fun write =>
            (forall ok, P (Sys (WriteFile write.1 write.2) ok))
            /\ (forall kept, P (Unfinished write.1 write.2 kept))) writes
  -> logs P (promise_all writes).
Proof.
  intros HP w.
  destruct (promise_all_run writes w) as (evs & Hw & _ & Hall & _).
  exists evs. rewrite Hw. split; [done|]. split.
  - clear Hw. revert HP.
    induction Hall as [|write ev ws evs0 Hev _ IH]; intros HP;
      [constructor|].
    apply Forall_cons in HP as [[Hs Hu] HP]. constructor; [|by apply IH].
    destruct (rejects (disk w) write); [by subst|].
    destruct (List.filter _ _); [by subst|].
    destruct Hev as (kept & -> & _). apply Hu.
  - intros e He. apply promise_all_thrown in He as (write & Hin & Hr & ->).
    clear Hw. revert Hin.
    induction Hall as [|wr ev ws evs0 Hev _ IH]; intros Hin;
      [by apply elem_of_nil in Hin|].
    apply elem_of_cons in Hin as [<-|Hin].
    + rewrite Hr in Hev. subst. apply list_elem_of_here.
    + apply list_elem_of_further. by apply IH.
Qed.

End LogsRequests.

(** Showing [logs P] of a program text, step by step. *)
Ltac logs_steps side :=
  repeat first
    [ apply logs_bind; [|intros ?]
    | apply logs_try_rethrow
    | apply logs_try_swallow
    | apply logs_if
    | apply logs_promise_all;
      repeat (apply Forall_cons_2; [split; intros ?|]); [..|apply Forall_nil_2]
    | apply logs_ensureDir; intros ?
    | apply logs_writeFile; intros ?
    | apply logs_execAsync; intros ?
    | apply logs_spinner
    | apply logs_console_log
    | apply logs_ret
    | side ].

Ltac confined_side :=
  cbn [confined];
  first
    [ exact I
    | by left
    | right; eexists; split; [|reflexivity];
      repeat first [apply list_elem_of_here | apply list_elem_of_further]
    | split; [reflexivity|];
      repeat first [apply list_elem_of_here | apply list_elem_of_further] ].


(** ** A step that fails *)

Lemma written_files_app evs1 evs2 :
  written_files (evs1 ++ evs2) = written_files evs1 ++ written_files evs2.
Proof. apply omap_app. Qed.


(** Log entries none of which is a write that ran to its end. *)
Lemma written_files_none evs :
  Forall (fun ev => forall p data, ev <> Sys (WriteFile p data) true) evs
  -> written_files evs = [].
Proof.
  induction 1 as [|ev evs Hev _ IH]; [done|].
  destruct ev as [[q|q c|c cwd] [|]|q c kept| | | |]; cbn; try done.
  by destruct (Hev q c).
Qed.

(** A step of the scaffolding that throws: its body threw, and the
    failure message was reported after it. *)
Lemma step_thrown {A : Type} (body : IO A) start text w e w' :
  (spinner Start start;;
   try_catch body (fun error => spinner Fail text;; throw error)) w
  = (Thrown e, w')
  -> exists w1,
       body (mkWorld (disk w) (stdin w) (events w ++ [Spinner Start start]))
       = (Thrown e, w1)
       /\ w' = mkWorld (disk w1) (stdin w1)
                 (events w1 ++ [Spinner Fail text]).
Proof.
  unfold spinner. rewrite emit_bind. unfold try_catch.
  match goal with
  | |- context [body ?w0] => destruct (body w0) as [[a|e1|] w1]
  end; [done | | done].
  rewrite emit_bind. intros [= <- <-]. by exists w1.
Qed.

Section FailedStep.
Context {paths : PathLib} {host : Host}.

(** A createProjectStructure that throws: the error is a directory
    request, and no file was written. *)
Lemma createProjectStructure_thrown projectPath answers w e w' :
  createProjectStructure projectPath answers w = (Thrown e, w')
  -> (exists p, e = EnsureDir p)
     /\ last (events w')
        = Some (Spinner Fail "Failed to create project structure")
     /\ exists evs, events w' = events w ++ evs /\ written_files evs = [].
Proof.
  intros H. unfold createProjectStructure in H.
  apply step_thrown in H as (w1 & H & ->). cbn [events].
  match type of H with
  | ?body ?w0 = _ =>
      assert (Hl : logs (fun ev => match ev with
                                   | Sys (EnsureDir _) _ | Spinner _ _ => True
                                   | _ => False
                                   end) body)
        by (logs_steps ltac:(exact I));
      destruct (Hl w0) as (evs & He & HP & Ht)
  end.
  rewrite H in He, Ht. cbn [fst snd events] in *.
  specialize (Ht e eq_refl). rewrite Forall_forall in HP.
  split; [|split; [apply last_snoc|]].
  - specialize (HP _ Ht). destruct e; [by eexists | done | done].
  - assert (Hn : written_files evs = []).
    { apply written_files_none, Forall_forall. intros ev Hin q c ->.
      exact (HP _ Hin). }
    eexists. split; [rewrite He, <- !app_assoc; reflexivity|].
    rewrite !written_files_app, Hn. reflexivity.
Qed.

Lemma createPackageJson_thrown projectPath answers w e w' :
  createPackageJson projectPath answers w = (Thrown e, w')
  -> e = WriteFile (path_join projectPath "package.json")
           (packageJsonText answers)
     /\ last (events w') = Some (Spinner Fail "Failed to create package.json")
     /\ exists evs, events w' = events w ++ evs /\ written_files evs = [].
Proof.
  intros H. unfold createPackageJson in H.
  apply step_thrown in H as (w1 & H & ->).
  apply bind_thrown in H as [H|(u & w2 & _ & H)]; [|done].
  unfold writeFile in H. cbn [disk stdin events] in H.
  destruct (fs_fault _ _ || is_dir _); [|done].
  injection H as <- <-. cbn [events].
  split; [done|]. split; [apply last_snoc|].
  rewrite <- !app_assoc. by eexists.
Qed.

Lemma batch_thrown writes text w e w' :
  (promise_all writes;; spinner Succeed text) w = (Thrown e, w')
  -> (exists write, write ∈ writes /\ e = WriteFile write.1 write.2)
     /\ exists evs,
       events w' = events w ++ evs /\ written_files evs = []
       /\ Forall (fun ev => exists write,
                    write ∈ writes
                    /\ (ev = Sys (WriteFile write.1 write.2) false
                        \/ exists kept,
                             ev = Unfinished write.1 write.2 kept
                             /\ match kept with
                                | Some s => String.prefix s write.2 = true
                                | None => True
                                end)) evs.
Proof.
  intros H. apply bind_thrown in H as [H|(u & w2 & _ & H)]; [|done].
  destruct (promise_all_run writes w) as (evs & Hw & _ & Hall & Ho).
  split.
  { destruct (promise_all_thrown writes w e) as (write & Hin & _ & ->);
      [by rewrite H | by exists write]. }
  rewrite H in Hw, Ho. cbn [fst snd] in *. subst w'.
  exists evs. cbn [events]. split; [done|].
  destruct (List.filter (rejects (disk w)) writes) as [|first others];
    [done|]. clear Ho H.
  assert (Hevs : Forall (fun ev => exists write,
                    write ∈ writes
                    /\ (ev = Sys (WriteFile write.1 write.2) false
                        \/ exists kept,
                             ev = Unfinished write.1 write.2 kept
                             /\ match kept with
                                | Some s => String.prefix s write.2 = true
                                | None => True
                                end)) evs).
  { induction Hall as [|write ev ws evs0 Hev _ IH]; [constructor|].
    constructor.
    - exists write. split; [apply list_elem_of_here|].
      destruct (rejects (disk w) write); [by left | by right].
    - eapply Forall_impl; [exact IH|]. intros ev' (wr & Hin & Hev').
      exists wr. split; [by apply list_elem_of_further | done]. }
  split; [|exact Hevs].
  apply written_files_none. eapply Forall_impl; [exact Hevs|].
  intros ev (wr & _ & [->|(kept & -> & _)]) q c; done.
Qed.

Lemma createPackageJson_returned projectPath answers w w' :
  createPackageJson projectPath answers w = (Returned tt, w')
  -> exists evs, events w' = events w ++ evs
       /\ written_files evs
          = [(path_join projectPath "package.json", packageJsonText answers)].
Proof.
  intros H. unfold createPackageJson in H. run_returned H. log_returned.
Qed.

Lemma createConfigFiles_returned projectPath w w' :
  createConfigFiles projectPath w = (Returned tt, w')
  -> exists evs, events w' = events w ++ evs
       /\ written_files evs
          = [(path_join projectPath "vite.config.js", viteConfig);
             (path_join projectPath "tailwind.config.js", tailwindConfig);
             (path_join projectPath "postcss.config.js", postcssConfig);
             (path_join projectPath ".gitignore", gitignore)].
Proof.
  intros H. unfold createConfigFiles in H. run_returned H. log_returned.
Qed.


(** A scaffolding that throws: which request was thrown, by which step,
    what was reported last, and which files had been written to their
    end (those of the steps before). *)
Lemma scaffold_thrown_step projectPath answers w e w' :
  scaffold projectPath answers w = (Thrown e, w')
  -> ((exists p, e = EnsureDir p)
      /\ last (events w')
         = Some (Spinner Fail "Failed to create project structure")
      /\ written_files (since w w') = [])
     \/ (e = WriteFile (path_join projectPath "package.json")
                (packageJsonText answers)
         /\ last (events w')
            = Some (Spinner Fail "Failed to create package.json")
         /\ written_files (since w w') = [])
     \/ (e ∈ config_writes projectPath
         /\ last (events w')
            = Some (Spinner Fail "Failed to create configuration files")
         /\ written_files (since w w')
            = take 1 (generated_files projectPath answers))
     \/ (e ∈ source_writes projectPath answers
         /\ last (events w')
            = Some (Spinner Fail "Failed to create source files")
         /\ written_files (since w w')
            = take 5 (generated_files projectPath answers)).
Proof.
  intros H. unfold scaffold in H.
  apply bind_thrown in H as [H|(u1 & w1 & H1 & H)].
  { apply createProjectStructure_thrown in H as (Hp & Hl & evs & He & Hw).
    left. by rewrite (since_app _ _ _ He). }
  destruct u1.
  apply createProjectStructure_returned in H1
    as (evs1 & He1 & _ & _ & _ & Hw1 & _).
  apply bind_thrown in H as [H|(u2 & w2 & H2 & H)].
  { apply createPackageJson_thrown in H as (-> & Hl & evs & He & Hw).
    right. left. split; [done|]. split; [done|].
    erewrite since_app by (rewrite He, He1, <- app_assoc; reflexivity).
    by rewrite written_files_app, Hw1, Hw. }
  destruct u2. apply createPackageJson_returned in H2 as (evs2 & He2 & Hw2).
  apply bind_thrown in H as [H|(u3 & w3 & H3 & H)].
  { unfold createConfigFiles in H. apply step_thrown in H as (w4 & H & ->).
    apply batch_thrown in H as ((write & Hin & ->) & evs & He & Hw & _).
    cbn [events] in He.
    right. right. left. split; [|split; [apply last_snoc|]].
    - repeat (apply elem_of_cons in Hin as [->|Hin];
              [repeat first [apply list_elem_of_here
                            | apply list_elem_of_further]|]).
      by apply elem_of_nil in Hin.
    - erewrite since_app
        by (cbn [events]; rewrite He, He2, He1, <- !app_assoc; reflexivity).
      rewrite !written_files_app, Hw1, Hw2, Hw. reflexivity. }
  destruct u3. apply createConfigFiles_returned in H3 as (evs3 & He3 & Hw3).
  unfold createSourceFiles in H. apply step_thrown in H as (w4 & H & ->).
  apply batch_thrown in H as ((write & Hin & ->) & evs & He & Hw & _).
  cbn [events] in He.
  right. right. right. split; [|split; [apply last_snoc|]].
  - repeat (apply elem_of_cons in Hin as [->|Hin];
            [repeat first [apply list_elem_of_here
                          | apply list_elem_of_further]|]).
    by apply elem_of_nil in Hin.
  - erewrite since_app
      by (cbn [events]; rewrite He, He3, He2, He1, <- !app_assoc;
          reflexivity).
    rewrite !written_files_app, Hw1, Hw2, Hw3, Hw. reflexivity.
Qed.

End FailedStep.



(** ** The manifest that is written *)

(** The text of the manifest, for every name and both router choices: the
    lines that [JSON.stringify(packageJson, null, 2)] gives, with the name
    as a JSON string. *)
Lemma packageJsonText_lines (answers : Answers) :
  packageJsonText answers
  = "{" +:+ Str.nl
  +:+ "  " +:+ Str.q "name" +:+ ": "
        +:+ Json.quote (projectName answers) +:+ "," +:+ Str.nl
  +:+ "  " +:+ Str.q "private" +:+ ": true," +:+ Str.nl
  +:+ "  " +:+ Str.q "version" +:+ ": " +:+ Str.q "0.1.0" +:+ "," +:+ Str.nl
  +:+ "  " +:+ Str.q "type" +:+ ": " +:+ Str.q "module" +:+ "," +:+ Str.nl
  +:+ "  " +:+ Str.q "scripts" +:+ ": {" +:+ Str.nl
  +:+ "    " +:+ Str.q "dev" +:+ ": " +:+ Str.q "vite" +:+ "," +:+ Str.nl
  +:+ "    " +:+ Str.q "build" +:+ ": " +:+ Str.q "vite build" +:+ "," +:+ Str.nl
  +:+ "    " +:+ Str.q "preview" +:+ ": " +:+ Str.q "vite preview" +:+ Str.nl
  +:+ "  }," +:+ Str.nl
  +:+ "  " +:+ Str.q "dependencies" +:+ ": {" +:+ Str.nl
  +:+ "    " +:+ Str.q "react" +:+ ": " +:+ Str.q "^18.3.1" +:+ "," +:+ Str.nl
  +:+ "    " +:+ Str.q "react-dom" +:+ ": " +:+ Str.q "^18.3.1"
  +:+ (if useRouter answers
       then "," +:+ Str.nl
            +:+ "    " +:+ Str.q "react-router-dom" +:+ ": " +:+ Str.q "^6.26.0"
       else EmptyString)
  +:+ Str.nl
  +:+ "  }," +:+ Str.nl
  +:+ "  " +:+ Str.q "devDependencies" +:+ ": {" +:+ Str.nl
  +:+ "    " +:+ Str.q "@vitejs/plugin-react" +:+ ": " +:+ Str.q "^4.3.1" +:+ "," +:+ Str.nl
  +:+ "    " +:+ Str.q "autoprefixer" +:+ ": " +:+ Str.q "^10.4.20" +:+ "," +:+ Str.nl
  +:+ "    " +:+ Str.q "postcss" +:+ ": " +:+ Str.q "^8.4.41" +:+ "," +:+ Str.nl
  +:+ "    " +:+ Str.q "tailwindcss" +:+ ": " +:+ Str.q "^3.4.10" +:+ "," +:+ Str.nl
  +:+ "    " +:+ Str.q "vite" +:+ ": " +:+ Str.q "^5.4.1" +:+ Str.nl
  +:+ "  }" +:+ Str.nl
  +:+ "}".
Proof.
  destruct answers as [loc name router install].
  unfold packageJsonText, packageJson, dependencies.
  cbn [projectName useRouter Json.stringify].
  generalize (Json.quote name). intros quoted.
  destruct router; vm_compute; reflexivity.
Qed.

Section ManifestWritten.
Context {paths : PathLib} {host : Host}.

(** createPackageJson makes one request, the write of that text, and the
    file holds it when the step returns. *)
Lemma createPackageJson_run projectPath answers w :
  let r := createPackageJson projectPath answers w in
  attempted (since w r.2)
  = [WriteFile (path_join projectPath "package.json")
       (packageJsonText answers)]
  /\ match r.1 with
     | Returned _ =>
         disk r.2 !! path_join projectPath "package.json"
         = Some (File (packageJsonText answers))
     | _ => disk r.2 = disk w
     end.
Proof.
  intros r. subst r. unfold createPackageJson, spinner.
  rewrite emit_bind. unfold try_catch. rewrite bind_unfold.
  unfold writeFile. cbn [disk stdin events].
  destruct (fs_fault _ _ || is_dir _); cbv iota beta.
  - rewrite emit_bind. unfold throw. cbn [fst snd disk stdin events].
    erewrite since_app by (rewrite <- !app_assoc; reflexivity).
    done.
  - unfold emit. cbn [fst snd disk stdin events].
    erewrite since_app by (rewrite <- !app_assoc; reflexivity).
    split; [done | apply lookup_insert_eq].
Qed.

End ManifestWritten.

(** C3.  The text written to package.json, for every set of answers, is
    the text of an object with the answered name, [private: true],
    version 0.1.0, the fixed react and react-dom versions, the five fixed
    devDependencies, and the react-router-dom ^6.26.0 member exactly when
    the router was chosen: the object has these members, the text is its
    members line by line, the text is the same for any two sets of
    answers with the same project name and router choice, and it is this
    text that createPackageJson asks to write, in its one request, and
    that the file holds when the step returns. *)
Theorem packageJson_contents (answers : Answers) :
  Json.get "name" (packageJson answers)
    = Some (Json.Str (projectName answers))
  /\ Json.get "private" (packageJson answers) = Some (Json.Bool true)
  /\ Json.get "version" (packageJson answers) = Some (Json.Str "0.1.0")
  /\ Json.get "dependencies" (packageJson answers)
     = Some (Json.Obj (dependencies answers))
  /\ Json.get "react" (dependencies answers) = Some (Json.Str "^18.3.1")
  /\ Json.get "react-dom" (dependencies answers)
     = Some (Json.Str "^18.3.1")
  /\ Json.get "react-router-dom" (dependencies answers)
     = (if useRouter answers then Some (Json.Str "^6.26.0") else None)
  /\ map fst (dependencies answers)
     = ["react"; "react-dom"]
       ++ (if useRouter answers then ["react-router-dom"] else [])
  /\ Json.get "devDependencies" (packageJson answers)
     = Some (Json.Obj
         [("@vitejs/plugin-react", Json.Str "^4.3.1");
          ("autoprefixer", Json.Str "^10.4.20");
          ("postcss", Json.Str "^8.4.41");
          ("tailwindcss", Json.Str "^3.4.10");
          ("vite", Json.Str "^5.4.1")])
  /\ packageJsonText answers
     = "{" +:+ Str.nl
     +:+ "  " +:+ Str.q "name" +:+ ": "
           +:+ Json.quote (projectName answers) +:+ "," +:+ Str.nl
     +:+ "  " +:+ Str.q "private" +:+ ": true," +:+ Str.nl
     +:+ "  " +:+ Str.q "version" +:+ ": " +:+ Str.q "0.1.0" +:+ "," +:+ Str.nl
     +:+ "  " +:+ Str.q "type" +:+ ": " +:+ Str.q "module" +:+ "," +:+ Str.nl
     +:+ "  " +:+ Str.q "scripts" +:+ ": {" +:+ Str.nl
     +:+ "    " +:+ Str.q "dev" +:+ ": " +:+ Str.q "vite" +:+ "," +:+ Str.nl
     +:+ "    " +:+ Str.q "build" +:+ ": " +:+ Str.q "vite build" +:+ "," +:+ Str.nl
     +:+ "    " +:+ Str.q "preview" +:+ ": " +:+ Str.q "vite preview" +:+ Str.nl
     +:+ "  }," +:+ Str.nl
     +:+ "  " +:+ Str.q "dependencies" +:+ ": {" +:+ Str.nl
     +:+ "    " +:+ Str.q "react" +:+ ": " +:+ Str.q "^18.3.1" +:+ "," +:+ Str.nl
     +:+ "    " +:+ Str.q "react-dom" +:+ ": " +:+ Str.q "^18.3.1"
     +:+ (if useRouter answers
          then "," +:+ Str.nl
               +:+ "    " +:+ Str.q "react-router-dom" +:+ ": "
               +:+ Str.q "^6.26.0"
          else EmptyString)
     +:+ Str.nl
     +:+ "  }," +:+ Str.nl
     +:+ "  " +:+ Str.q "devDependencies" +:+ ": {" +:+ Str.nl
     +:+ "    " +:+ Str.q "@vitejs/plugin-react" +:+ ": " +:+ Str.q "^4.3.1" +:+ "," +:+ Str.nl
     +:+ "    " +:+ Str.q "autoprefixer" +:+ ": " +:+ Str.q "^10.4.20" +:+ "," +:+ Str.nl
     +:+ "    " +:+ Str.q "postcss" +:+ ": " +:+ Str.q "^8.4.41" +:+ "," +:+ Str.nl
     +:+ "    " +:+ Str.q "tailwindcss" +:+ ": " +:+ Str.q "^3.4.10" +:+ "," +:+ Str.nl
     +:+ "    " +:+ Str.q "vite" +:+ ": " +:+ Str.q "^5.4.1" +:+ Str.nl
     +:+ "  }" +:+ Str.nl
     +:+ "}"
  /\ packageJsonText answers
     = packageJsonText
         (mkAnswers EmptyString (projectName answers) (useRouter answers)
            false)
  /\ (forall (paths : PathLib) (host : Host) projectPath w,
        let r := createPackageJson projectPath answers w in
        attempted (since w r.2)
        = [WriteFile (path_join projectPath "package.json")
             (packageJsonText answers)]
        /\ match r.1 with
           | Returned _ =>
               disk r.2 !! path_join projectPath "package.json"
               = Some (File (packageJsonText answers))
           | _ => disk r.2 = disk w
           end).
Proof.
  destruct answers as [loc name router install].
  do 4 (split; [reflexivity|]).
  do 4 (split; [by destruct router|]).
  split; [reflexivity|].
  split; [exact (packageJsonText_lines (mkAnswers loc name router install))|].
  split; [reflexivity|].
  intros paths host projectPath w. apply createPackageJson_run.
Qed.

(** The manifest text for one set of answers, line by line. *)
Example packageJsonText_sample :
  packageJsonText (mkAnswers "/work" "my-app" true false)
  = "{" +:+ Str.nl
  +:+ "  " +:+ Str.q "name" +:+ ": " +:+ Str.q "my-app" +:+ "," +:+ Str.nl
  +:+ "  " +:+ Str.q "private" +:+ ": true," +:+ Str.nl
  +:+ "  " +:+ Str.q "version" +:+ ": " +:+ Str.q "0.1.0" +:+ "," +:+ Str.nl
  +:+ "  " +:+ Str.q "type" +:+ ": " +:+ Str.q "module" +:+ "," +:+ Str.nl
  +:+ "  " +:+ Str.q "scripts" +:+ ": {" +:+ Str.nl
  +:+ "    " +:+ Str.q "dev" +:+ ": " +:+ Str.q "vite" +:+ "," +:+ Str.nl
  +:+ "    " +:+ Str.q "build" +:+ ": " +:+ Str.q "vite build" +:+ "," +:+ Str.nl
  +:+ "    " +:+ Str.q "preview" +:+ ": " +:+ Str.q "vite preview" +:+ Str.nl
  +:+ "  }," +:+ Str.nl
  +:+ "  " +:+ Str.q "dependencies" +:+ ": {" +:+ Str.nl
  +:+ "    " +:+ Str.q "react" +:+ ": " +:+ Str.q "^18.3.1" +:+ "," +:+ Str.nl
  +:+ "    " +:+ Str.q "react-dom" +:+ ": " +:+ Str.q "^18.3.1" +:+ "," +:+ Str.nl
  +:+ "    " +:+ Str.q "react-router-dom" +:+ ": " +:+ Str.q "^6.26.0" +:+ Str.nl
  +:+ "  }," +:+ Str.nl
  +:+ "  " +:+ Str.q "devDependencies" +:+ ": {" +:+ Str.nl
  +:+ "    " +:+ Str.q "@vitejs/plugin-react" +:+ ": " +:+ Str.q "^4.3.1" +:+ "," +:+ Str.nl
  +:+ "    " +:+ Str.q "autoprefixer" +:+ ": " +:+ Str.q "^10.4.20" +:+ "," +:+ Str.nl
  +:+ "    " +:+ Str.q "postcss" +:+ ": " +:+ Str.q "^8.4.41" +:+ "," +:+ Str.nl
  +:+ "    " +:+ Str.q "tailwindcss" +:+ ": " +:+ Str.q "^3.4.10" +:+ "," +:+ Str.nl
  +:+ "    " +:+ Str.q "vite" +:+ ": " +:+ Str.q "^5.4.1" +:+ Str.nl
  +:+ "  }" +:+ Str.nl
  +:+ "}".
Proof. vm_compute. reflexivity. Qed.

(** * Further properties *)

(** ** The banner *)

(** X1.  [rainbow] changes nothing but the characters it colours: when the
    six colour functions leave every non-blank character of the text as it
    is (colours switched off, or a text of blanks only), the result is the
    text itself. *)
Theorem rainbow_plain {chalk : Chalk} (text : string) :
  (forall c, c ∈ Str.chars text -> is_blank c = false
     -> forall colour, colour ∈ colors
        -> colour (String c EmptyString) = String c EmptyString)
  -> rainbow text = text.
Proof.
  unfold rainbow. generalize 0. induction text as [|c text IH]; intros i H.
  - reflexivity.
  - cbn [rainbow_from]. rewrite IH.
    + destruct (is_blank c) eqn:Hb; [reflexivity|].
      destruct (colors !! (i mod length colors)) as [colour|] eqn:Hc;
        [|reflexivity].
      rewrite (H c); [reflexivity | apply list_elem_of_here | done |].
      by eapply list_elem_of_lookup_2.
    + intros c' Hc'. apply H. by apply list_elem_of_further.
Qed.

Lemma rainbow_plain_witness :
  @rainbow plainChalk "Happy coding!!!" = "Happy coding!!!".
Proof.
  apply (@rainbow_plain plainChalk "Happy coding!!!").
  intros c _ _ colour Hin.
  repeat (apply elem_of_cons in Hin as [->|Hin]; [reflexivity|]).
  by apply elem_of_nil in Hin.
Defined.

(** ** Accepted names *)

Lemma accepted_well_formed (name : string) :
  validateProjectName name = Accept -> well_formed_name name.
Proof.
  unfold validateProjectName.
  rewrite RegexFacts.test_projectNamePattern.
  destruct (decide (well_formed_name name)) as [H|H]; [done|].
  by rewrite bool_decide_eq_false_2.
Qed.

(** X2.  A name the validator accepts is not empty and has no character
    that could leave the project's parent directory or need escaping: no
    slash, backslash, dot, colon, blank, quote, angle bracket and the
    like. *)
Theorem accepted_name_is_safe (name : string) :
  validateProjectName name = Accept
  -> name <> EmptyString
     /\ Forall (fun c => c ∉ unsafe_chars) (Str.chars name).
Proof.
  intros H. apply accepted_well_formed in H as [Hne Hall].
  split; [done|]. eapply Forall_impl; [exact Hall|].
  intros c Hc. cbv beta in Hc. apply list_elem_of_In in Hc.
  assert (Hsafe : Forall (fun c => bool_decide (c ∉ unsafe_chars) = true)
                    name_alphabet).
  { unfold name_alphabet. cbn [Str.chars].
    repeat (apply Forall_cons; split; [vm_compute; reflexivity|]).
    constructor. }
  eapply Forall_forall in Hsafe; [|exact Hc].
  by apply bool_decide_eq_true in Hsafe.
Qed.

Lemma accepted_name_is_safe_witness :
  validateProjectName "my-react_app2" = Accept
  /\ Forall (fun c => c ∉ unsafe_chars) (Str.chars "my-react_app2").
Proof.
  assert (H : validateProjectName "my-react_app2" = Accept)
    by (vm_compute; reflexivity).
  split; [exact H|]. exact (proj2 (accepted_name_is_safe _ H)).
Defined.

Lemma escape_all_accepted (name : string) :
  validateProjectName name = Accept -> Json.escape_all name = name.
Proof.
  intros H. apply accepted_well_formed in H as [_ Hall].
  assert (Hid : Forall (fun c => Json.escape c = String c EmptyString)
                  name_alphabet).
  { unfold name_alphabet. cbn [Str.chars].
    repeat (apply Forall_cons; split; [vm_compute; reflexivity|]).
    constructor. }
  induction name as [|c name IH]; [reflexivity|].
  cbn [Str.chars] in Hall. apply Forall_cons in Hall as [Hc Hall].
  cbn [Json.escape_all]. rewrite IH by done.
  apply list_elem_of_In in Hc.
  eapply Forall_forall in Hid; [|exact Hc]. by rewrite Hid.
Qed.

(** X3.  For an accepted project name nothing is escaped in the manifest:
    its text has the member ["name": "<name>"] with the name as typed. *)
Theorem manifest_name_verbatim (answers : Answers) :
  validateProjectName (projectName answers) = Accept
  -> Json.escape_all (projectName answers) = projectName answers
     /\ Str.contains
          (Str.q "name" +:+ ": " +:+ Str.q (projectName answers))
          (packageJsonText answers) = true.
Proof.
  intros H. pose proof (escape_all_accepted _ H) as He.
  split; [done|].
  unfold packageJsonText, packageJson.
  cbn [Json.stringify]. unfold Json.quote at 2. rewrite He.
  match goal with
  | |- Str.contains _ (_ +:+ _ +:+ _ +:+ ?rest) = true =>
      generalize rest; intros after
  end.
  apply contains_spec. exists ("{" +:+ Str.nl +:+ Json.spaces 2), after.
  unfold Str.q. rewrite !string_app_assoc. reflexivity.
Qed.

Lemma manifest_name_verbatim_witness :
  let answers := mkAnswers "/work" "my-app" true false in
  validateProjectName (projectName answers) = Accept
  /\ Str.contains (Str.q "name" +:+ ": " +:+ Str.q "my-app")
       (packageJsonText answers) = true.
Proof.
  intros answers.
  assert (H : validateProjectName (projectName answers) = Accept)
    by (vm_compute; reflexivity).
  split; [exact H|]. exact (proj2 (manifest_name_verbatim answers H)).
Defined.
(** ** What every run of the scaffolding logs *)

Section BuildLogs.
Context {paths : PathLib} {host : Host}.

Lemma logs_scaffold (P : Event -> Prop) projectPath answers :
  (forall ev, confined projectPath ev -> P ev)
  -> logs P (scaffold projectPath answers).
Proof.
  intros HP.
  unfold scaffold, createProjectStructure, createPackageJson,
    createConfigFiles, createSourceFiles.
  logs_steps ltac:(apply HP; confined_side).
Qed.

Lemma logs_finish (P : Event -> Prop) projectPath answers :
  (forall ev, confined projectPath ev -> P ev)
  -> logs P (finish projectPath answers).
Proof.
  intros HP.
  unfold finish, installDependencies, initializeGit.
  logs_steps ltac:(apply HP; confined_side).
Qed.

Lemma logs_build (P : Event -> Prop) projectPath answers :
  (forall ev, confined projectPath ev -> P ev)
  -> logs P (build projectPath answers).
Proof.
  intros HP. unfold build.
  apply logs_bind; [by apply logs_scaffold | intros _; by apply logs_finish].
Qed.

End BuildLogs.

(** X4.  From the answers on, the program stays inside the project: in
    every run of [build], failed or not, each directory or file request is
    on the project path or on one of the fifteen fixed names joined to it,
    and each command is one of the four known ones, run with the project
    path as its working directory. *)
Theorem build_confined {paths : PathLib} {host : Host}
    projectPath answers w :
  Forall (confined projectPath) (since w (build projectPath answers w).2).
Proof.
  destruct (logs_build (confined projectPath) projectPath answers
              (fun ev H => H) w) as (evs & He & HP & _).
  by rewrite (since_app _ _ _ He).
Qed.

(** X5.  When [build] throws, the thrown error is a request that the log
    shows as failed, and the last log entry is the failure message of the
    step that made that request: the structure message for a directory
    request, the package.json message for the write of the manifest, the
    configuration message for one of the four configuration writes, the
    source message for one of the four source writes, the install message
    for npm install (which was chosen then).  Nothing else is thrown. *)
Theorem build_thrown_reported {paths : PathLib} {host : Host}
    projectPath answers w e w' :
  build projectPath answers w = (Thrown e, w')
  -> Sys e false ∈ since w w'
     /\ ((exists p, e = EnsureDir p)
         /\ last (events w')
            = Some (Spinner Fail "Failed to create project structure")
         \/ e = WriteFile (path_join projectPath "package.json")
                  (packageJsonText answers)
            /\ last (events w')
               = Some (Spinner Fail "Failed to create package.json")
         \/ e ∈ config_writes projectPath
            /\ last (events w')
               = Some (Spinner Fail "Failed to create configuration files")
         \/ e ∈ source_writes projectPath answers
            /\ last (events w')
               = Some (Spinner Fail "Failed to create source files")
         \/ e = Exec "npm install" projectPath
            /\ installNow answers = true
            /\ last (events w')
               = Some (Spinner Fail "Failed to install dependencies")).
Proof.
  intros H. split.
  { destruct (logs_build (fun _ => True) projectPath answers
                (fun _ _ => I) w) as (evs & He & _ & Ht).
    rewrite H in He, Ht. cbn [fst snd] in *.
    rewrite (since_app _ _ _ He). by apply Ht. }
  unfold build in H.
  apply bind_thrown in H as [H|(u & w1 & _ & H)].
  - destruct (scaffold_thrown_step _ _ _ _ _ H)
      as [(? & ? & _)|[(? & ? & _)|[(? & ? & _)|(? & ? & _)]]]; eauto 8.
  - pose proof (finish_run projectPath answers w1) as Hf. cbv zeta in Hf.
    destruct (installNow answers) eqn:Hi; cbn [andb] in Hf.
    + destruct (negb _).
      * rewrite Hf in H. injection H as <- <-.
        do 4 right. split; [done|]. split; [done|].
        cbn [events]. change [?a; ?b; ?c] with ([a; b] ++ [c]).
        rewrite app_assoc. apply last_snoc.
      * destruct Hf as (evs & w2 & Hf & _). congruence.
    + destruct Hf as (evs & w2 & Hf & _). congruence.
Qed.

Lemma build_thrown_reported_witness :
  let answers := mkAnswers "/work" "app" false true in
  let host := hostWith [] ["/work/app/src/assets"] in
  let w := demoWorld [] in
  let e := EnsureDir "/work/app/src/assets" in
  let w' := (@build slashPaths host "/work/app" answers w).2 in
  @build slashPaths host "/work/app" answers w = (Thrown e, w')
  /\ Sys e false ∈ since w w'
  /\ last (events w')
     = Some (Spinner Fail "Failed to create project structure").
Proof.
  intros answers host w e w'.
  assert (H : @build slashPaths host "/work/app" answers w = (Thrown e, w'))
    by (vm_compute; reflexivity).
  split; [exact H|].
  split; [|vm_compute; reflexivity].
  exact (proj1 (@build_thrown_reported slashPaths host "/work/app" answers
                  w e w' H)).
Defined.

(** ** Writing four files: all at once, or one after the other *)

Lemma attempted_app evs1 evs2 :
  attempted (evs1 ++ evs2) = attempted evs1 ++ attempted evs2.
Proof. apply omap_app. Qed.

Lemma failed_app evs1 evs2 :
  failed (evs1 ++ evs2) = failed evs1 ++ failed evs2.
Proof. apply omap_app. Qed.

Lemma attempted_request e ok evs :
  attempted (Sys e ok :: evs) = e :: attempted evs.
Proof. reflexivity. Qed.

Lemma failed_request e ok evs :
  failed (Sys e ok :: evs) = if ok then failed evs else e :: failed evs.
Proof. by destruct ok. Qed.

Lemma attempted_spinner k text evs :
  attempted (Spinner k text :: evs) = attempted evs.
Proof. reflexivity. Qed.

Lemma failed_spinner k text evs :
  failed (Spinner k text :: evs) = failed evs.
Proof. reflexivity. Qed.

Section FourWrites.
Context {paths : PathLib} {host : Host}.

Lemma write_of_run e w :
  is_write e
  -> exists ok : bool,
       write_of e w
       = (if ok then Returned tt else Thrown e,
          mkWorld (if ok then apply_event (disk w) (Sys e true) else disk w)
            (stdin w) (events w ++ [Sys e ok])).
Proof.
  destruct e as [p|p data|c cwd]; [done | intros _ | done].
  cbn [write_of]. unfold writeFile.
  destruct (fs_fault (disk w) (WriteFile p data) || is_dir (disk w !! p));
    [by exists false | by exists true].
Qed.

(** [Promise.all] over writes: every one is started, and the throw is one
    of those that failed. *)
Lemma promise_all_attempts writes w :
  exists evs,
    events (promise_all writes w).2 = events w ++ evs
    /\ attempted evs = map (fun write => WriteFile write.1 write.2) writes
    /\ ((promise_all writes w).1 = Returned tt <-> failed evs = [])
    /\ (forall e, (promise_all writes w).1 = Thrown e -> e ∈ failed evs)
    /\ (promise_all writes w).1 <> Waiting.
Proof.
  destruct (promise_all_run writes w) as (evs & Hw & _ & Hall & Ho).
  cbv zeta in *.
  exists evs. rewrite Hw. cbn [events]. split; [done|].
  assert (Hat : attempted evs
                = map (fun write => WriteFile write.1 write.2) writes).
  { clear Hw Ho. induction Hall as [|write ev ws evs0 Hev _ IH]; [done|].
    cbn [map]. rewrite <- IH.
    destruct (rejects (disk w) write); [by subst|].
    destruct (List.filter _ _); [by subst|].
    by destruct Hev as (kept & -> & _). }
  assert (Hf : failed evs
               = map (fun write => WriteFile write.1 write.2)
                   (List.filter (rejects (disk w)) writes)).
  { clear Hw Ho Hat.
    set (rejected := List.filter (rejects (disk w)) writes) in Hall.
    clearbody rejected.
    induction Hall as [|write ev ws evs0 Hev _ IH]; [done|].
    cbn [List.filter]. destruct (rejects (disk w) write).
    - subst ev. cbn [map]. by rewrite <- IH.
    - rewrite <- IH. destruct rejected; [by subst|].
      by destruct Hev as (kept & -> & _). }
  split; [done|]. rewrite Ho, Hf.
  destruct (List.filter (rejects (disk w)) writes) as [|first others] eqn:He.
  - repeat split; try done.
  - split; [done|]. split; [|done]. intros e [= <-].
    apply (list_elem_of_fmap_2
             (fun write : string * string => WriteFile write.1 write.2)).
    destruct ((first :: others)
                !! first_rejection (disk w) (first :: others)) eqn:Hl;
      [by eapply list_elem_of_lookup_2 | apply list_elem_of_here].
Qed.

Lemma writes_then_run (es : list Effect) ev w :
  Forall is_write es -> ~ is_request ev
  -> exists evs,
       events (writes_then es (emit ev) w).2 = events w ++ evs
       /\ ((writes_then es (emit ev) w).1 = Returned tt
           /\ attempted evs = es /\ failed evs = []
           \/ exists done_before e,
                (writes_then es (emit ev) w).1 = Thrown e
                /\ attempted evs = done_before ++ [e]
                /\ failed evs = [e]
                /\ (done_before ++ [e]) `prefix_of` es).
Proof.
  intros Hes Hev. revert w. induction Hes as [|e es He Hes IH]; intros w.
  - exists [ev]. cbn [writes_then emit fst snd events].
    split; [done|]. left. destruct ev; done.
  - cbn [writes_then]. rewrite bind_unfold.
    destruct (write_of_run e w He) as (ok & ->). destruct ok.
    + match goal with
      | |- context [writes_then es (emit ev) ?w1] =>
          destruct (IH w1) as (evs & Hevs & Hcases)
      end.
      cbn [events] in Hevs. exists (Sys e true :: evs).
      rewrite Hevs, <- app_assoc. split; [done|].
      rewrite attempted_request, failed_request.
      destruct Hcases as [(-> & Hat & Hf)|(pre & e' & -> & Hat & Hf & Hp)].
      * left. by rewrite Hat, Hf.
      * right. exists (e :: pre), e'. rewrite Hat, Hf.
        repeat split; try done. by apply prefix_cons.
    + exists [Sys e false]. cbn [fst snd events]. split; [done|].
      right. exists (@nil Effect), e. repeat split; try done.
      apply prefix_cons, prefix_nil.
Qed.

End FourWrites.

(** X6.  The configuration step and the source step of the asynchronous
    program start all four of their writes in every run, whatever fails
    (Promise.all does not stop the others); the step returns exactly when
    none of them failed, and an error it throws is one of the failed
    writes. *)
Theorem promise_all_steps_attempt_all {paths : PathLib} {host : Host}
    projectPath answers w :
  let rc := createConfigFiles projectPath w in
  let rs := createSourceFiles projectPath answers w in
  (attempted (since w rc.2) = config_writes projectPath
   /\ (rc.1 = Returned tt <-> failed (since w rc.2) = [])
   /\ (forall e, rc.1 = Thrown e -> e ∈ failed (since w rc.2)))
  /\ (attempted (since w rs.2) = source_writes projectPath answers
      /\ (rs.1 = Returned tt <-> failed (since w rs.2) = [])
      /\ (forall e, rs.1 = Thrown e -> e ∈ failed (since w rs.2))).
Proof.
  assert (Hstep : forall writes start ok ko,
    let r := (spinner Start start;;
              try_catch (promise_all writes;; spinner Succeed ok)
                (fun error => spinner Fail ko;; throw error)) w in
    attempted (since w r.2)
    = map (fun write => WriteFile write.1 write.2) writes
    /\ (r.1 = Returned tt <-> failed (since w r.2) = [])
    /\ (forall e, r.1 = Thrown e -> e ∈ failed (since w r.2))).
  { intros writes start ok ko r. subst r.
    unfold spinner. rewrite emit_bind. unfold try_catch.
    rewrite bind_unfold.
    match goal with
    | |- context [promise_all writes ?w1] =>
        destruct (promise_all_attempts writes w1)
          as (evs & Hev & Hat & Hret & Hthr & Hwait);
        destruct (promise_all writes w1) as [[[]|e|] w2]
    end; cbn [fst snd events] in *; [| |done].
    - unfold emit. cbn [fst snd events].
      erewrite since_app
        by (rewrite Hev, <- !app_assoc; reflexivity).
      cbn [app].
      rewrite attempted_spinner, failed_spinner, attempted_app, failed_app,
        Hat, (proj1 Hret eq_refl).
      cbn. rewrite app_nil_r. repeat split; try done.
    - rewrite emit_bind. unfold throw. cbn [fst snd events].
      erewrite since_app
        by (rewrite Hev, <- !app_assoc; reflexivity).
      cbn [app].
      rewrite attempted_spinner, failed_spinner, attempted_app, failed_app,
        Hat.
      cbn. rewrite !app_nil_r. split; [done|].
      pose proof (Hthr e eq_refl) as Hin. split.
      + split; [done|]. intros Hn. rewrite Hn in Hin.
        by apply elem_of_nil in Hin.
      + by intros e' [= <-]. }
  intros rc rs.
  split; [apply (Hstep [(_, _); (_, _); (_, _); (_, _)])
         | apply (Hstep [(_, _); (_, _); (_, _); (_, _)])].
Qed.

(** X7.  In the synchronous program the same two steps stop at the first
    write that fails: the requests made are a prefix of the four, in
    order; a thrown error is the last request made and the only failed
    one; a step that returns has made all four. *)
Theorem sync_steps_stop_at_failure {paths : PathLib} {host : Host}
    projectPath answers w :
  let rc := Sync.createConfigFiles projectPath w in
  let rs := Sync.createSourceFiles projectPath answers w in
  (attempted (since w rc.2) `prefix_of` config_writes projectPath
   /\ (rc.1 = Returned tt
       /\ attempted (since w rc.2) = config_writes projectPath
       /\ failed (since w rc.2) = []
       \/ exists done_before e,
            rc.1 = Thrown e
            /\ attempted (since w rc.2) = done_before ++ [e]
            /\ failed (since w rc.2) = [e]))
  /\ (attempted (since w rs.2) `prefix_of` sync_source_writes projectPath
                                            answers
      /\ (rs.1 = Returned tt
          /\ attempted (since w rs.2) = sync_source_writes projectPath answers
          /\ failed (since w rs.2) = []
          \/ exists done_before e,
               rs.1 = Thrown e
               /\ attempted (since w rs.2) = done_before ++ [e]
               /\ failed (since w rs.2) = [e])).
Proof.
  assert (Hstep : forall es start ok ko,
    Forall is_write es ->
    let r := (spinner Start start;;
              try_catch (writes_then es (spinner Succeed ok))
                (fun error => spinner Fail ko;; throw error)) w in
    attempted (since w r.2) `prefix_of` es
    /\ (r.1 = Returned tt
        /\ attempted (since w r.2) = es /\ failed (since w r.2) = []
        \/ exists done_before e,
             r.1 = Thrown e
             /\ attempted (since w r.2) = done_before ++ [e]
             /\ failed (since w r.2) = [e])).
  { intros es start ok ko Hes r. subst r.
    unfold spinner. rewrite emit_bind. unfold try_catch.
    match goal with
    | |- context [writes_then es (emit ?ev) ?w1] =>
        destruct (writes_then_run es ev w1 Hes) as (evs & Hev & Hcases);
          [by intros []|];
        destruct (writes_then es (emit ev) w1) as [r1 w2]
    end.
    cbn [fst snd events] in *.
    destruct Hcases as [(-> & Hat & Hf)|(pre & e & -> & Hat & Hf & Hp)].
    - cbn [fst snd].
      erewrite since_app by (rewrite Hev, <- !app_assoc; reflexivity).
      cbn [app]. rewrite attempted_spinner, failed_spinner, Hat, Hf.
      split; [done|]. by left.
    - rewrite emit_bind. cbn [throw fst snd events].
      erewrite since_app by (rewrite Hev, <- !app_assoc; reflexivity).
      cbn [app].
      rewrite attempted_spinner, failed_spinner, attempted_app, failed_app,
        Hat, Hf.
      cbn [attempted failed omap].
      rewrite !app_nil_r. split; [done|]. right. by exists pre, e. }
  intros rc rs. split.
  - apply (Hstep (config_writes projectPath)
             "Creating configuration files..."
             "Configuration files created"
             "Failed to create configuration files").
    repeat constructor.
  - apply (Hstep (sync_source_writes projectPath answers)
             "Creating source files..." "Source files created"
             "Failed to create source files").
    repeat constructor.
Qed.

(** ** Before the answers are complete *)

Lemma quiet_ret {A : Type} (a : A) : quiet (mret a : IO A).
Proof.
  intros w. split; [done|]. split; [|intros e He; discriminate He].
  exists []. split; [symmetry; apply app_nil_r | constructor].
Qed.

Lemma quiet_emit ev : ~ is_request ev -> quiet (emit ev).
Proof.
  intros H w. split; [done|]. split; [|intros e He; discriminate He].
  exists [ev]. split; [done | by repeat constructor].
Qed.

Lemma quiet_get_disk : quiet get_disk.
Proof.
  intros w. split; [done|]. split; [|intros e He; discriminate He].
  exists []. split; [symmetry; apply app_nil_r | constructor].
Qed.

Lemma quiet_bind {A B : Type} (m : IO A) (f : A -> IO B) :
  quiet m -> (forall a, quiet (f a)) -> quiet (m ≫= f).
Proof.
  intros Hm Hf w. rewrite bind_unfold.
  destruct (Hm w) as (Hd1 & (evs1 & He1 & HP1) & Ht1).
  destruct (m w) as [[a|e|] w1] eqn:Hmw; cbn [fst snd] in *.
  - destruct (Hf a w1) as (Hd2 & (evs2 & He2 & HP2) & Ht2).
    split; [congruence|]. split; [|done].
    exists (evs1 ++ evs2). rewrite He2, He1, app_assoc.
    split; [done | by apply Forall_app].
  - by destruct (Ht1 e).
  - split; [done|]. split; [by exists evs1 | done].
Qed.

Lemma quiet_prompt_input message default validate :
  quiet (prompt_input message default validate).
Proof.
  intros w. unfold prompt_input.
  assert (Hin : forall lines, Forall (fun ev => ~ is_request ev)
                  (input_loop validate default lines).1).
  { induction lines as [|line lines IH]; cbn [input_loop]; [constructor|].
    destruct (validate (entered default line)); [constructor|].
    destruct (input_loop validate default lines) as [evs r].
    cbn [fst] in *. constructor; [by intros [] | done]. }
  specialize (Hin (stdin w)).
  destruct (input_loop validate default (stdin w)) as [evs [[v rest]|]];
    cbn [fst snd disk events] in *;
    (split; [done|]); (split; [|intros e He; discriminate He]);
    (eexists; split; [reflexivity|]); (constructor; [by intros [] | done]).
Qed.

Lemma quiet_prompt_confirm message default :
  quiet (prompt_confirm message default).
Proof.
  intros w. unfold prompt_confirm.
  destruct (stdin w); cbn [fst snd disk events];
    (split; [done|]); (split; [|intros e He; discriminate He]);
    (eexists; split; [reflexivity|]); repeat constructor; by intros [].
Qed.

Section QuietAsk.
Context {paths : PathLib}.

Lemma quiet_nameLoop fuel location default :
  quiet (nameLoop fuel location default).
Proof.
  induction fuel as [|fuel IH].
  - intros w. cbn [nameLoop fst snd]. split; [done|].
    split; [|intros e He; discriminate He].
    exists []. split; [symmetry; apply app_nil_r | constructor].
  - cbn [nameLoop]. apply quiet_bind; [apply quiet_prompt_input|].
    intros name. apply quiet_bind; [apply quiet_get_disk|]. intros d.
    destruct (existsSync d (path_join location name)).
    + apply quiet_bind; [apply quiet_emit; by intros [] | by intros _].
    + apply quiet_ret.
Qed.

Lemma quiet_ask cliName : quiet (ask cliName).
Proof.
  unfold ask. apply quiet_bind; [apply quiet_get_disk|]. intros d.
  apply quiet_bind; [apply quiet_prompt_input|]. intros location.
  apply quiet_bind.
  { intros w. apply quiet_nameLoop. }
  intros [name projectPath].
  apply quiet_bind; [apply quiet_prompt_confirm|]. intros router.
  apply quiet_bind; [apply quiet_prompt_confirm|]. intros install.
  apply quiet_ret.
Qed.

End QuietAsk.

Lemma settles_ret {A : Type} (a : A) : settles (mret a : IO A).
Proof. intros w He. discriminate He. Qed.

Lemma settles_emit ev : settles (emit ev).
Proof. intros w He. discriminate He. Qed.

Lemma settles_bind {A B : Type} (m : IO A) (f : A -> IO B) :
  settles m -> (forall a, settles (f a)) -> settles (m ≫= f).
Proof.
  intros Hm Hf w. rewrite bind_unfold. specialize (Hm w).
  destruct (m w) as [[a|e|] w1]; cbn [fst] in *; [apply Hf | done | done].
Qed.

Lemma settles_try_catch {A : Type} (body : IO A) (handler : Effect -> IO A) :
  settles body -> (forall e, settles (handler e))
  -> settles (try_catch body handler).
Proof.
  intros Hm Hf w. unfold try_catch. specialize (Hm w).
  destruct (body w) as [[a|e|] w1]; cbn [fst] in *; [done | apply Hf | done].
Qed.

Section SettlesRequests.
Context {host : Host}.

Lemma settles_ensureDir path : settles (ensureDir path).
Proof.
  intros w. unfold ensureDir.
  by destruct (fs_fault (disk w) (EnsureDir path) || is_file (disk w !! path)).
Qed.

Lemma settles_writeFile path data : settles (writeFile path data).
Proof.
  intros w. unfold writeFile.
  by destruct (fs_fault (disk w) (WriteFile path data)
               || is_dir (disk w !! path)).
Qed.

Lemma settles_execAsync command cwd : settles (execAsync command cwd).
Proof.
  intros w. rewrite execAsync_run.
  by destruct (spawn command cwd (disk w)) as [[|] d].
Qed.

Lemma settles_promise_all writes : settles (promise_all writes).
Proof.
  intros w. unfold promise_all.
  by destruct (List.filter (rejects (disk w)) writes).
Qed.

End SettlesRequests.

Section SettlesBuild.
Context {paths : PathLib} {host : Host}.

Lemma settles_build projectPath answers :
  settles (build projectPath answers).
Proof.
  unfold build, scaffold, finish, createProjectStructure, createPackageJson,
    createConfigFiles, createSourceFiles, installDependencies, initializeGit,
    spinner, console_log, throw.
  repeat first
    [ apply settles_bind; [|intros ?]
    | apply settles_try_catch; [|intros ?]
    | apply settles_promise_all
    | apply settles_ensureDir
    | apply settles_writeFile
    | apply settles_execAsync
    | apply settles_emit
    | apply settles_ret
    | match goal with |- settles (if ?b then _ else _) => destruct b end
    | (intros w He; discriminate He) ].
Qed.

End SettlesBuild.

(** X8.  A run that is left waiting at a question has asked and printed
    only: the disk is as it was and no directory, file or command request
    is in the log.  Nothing is created before all four questions are
    answered. *)
Theorem abandoned_run_leaves_nothing {paths : PathLib} {host : Host}
    cliName w w' :
  action cliName w = (Waiting, w')
  -> disk w' = disk w
     /\ Forall (fun ev => ~ is_request ev) (since w w')
     /\ stdin w' = [].
Proof.
  unfold action, console_log. rewrite emit_bind, bind_unfold.
  match goal with
  | |- context [ask cliName ?w0] =>
      destruct (quiet_ask cliName w0) as (Hd & (evs & He & HP) & _);
      pose proof (fun p a => settles_build p a) as Hs;
      assert (Hst : (ask cliName w0).1 = Waiting -> stdin (ask cliName w0).2 = []);
      [|destruct (ask cliName w0) as [[[p a]|e|] w1] eqn:Ha]
  end.
  { unfold ask. rewrite get_disk_bind, bind_unfold. unfold prompt_input.
    destruct (input_loop _ _ _) as [evs0 [[v rest]|]]; [|done].
    rewrite bind_unfold. unfold askProjectName.
    match goal with
    | |- context [nameLoop ?n ?l ?d ?w1] =>
        assert (Hn : forall fuel w2, (nameLoop fuel l d w2).1 = Waiting
                       -> length (stdin w2) < fuel
                       -> stdin (nameLoop fuel l d w2).2 = [])
    end.
    { induction fuel as [|fuel IH]; intros w2 Hw Hf; [lia|].
      revert Hw. cbn [nameLoop]. rewrite bind_unfold. unfold prompt_input.
      destruct (input_loop _ _ (stdin w2)) as [evs1 [[v1 rest1]|]] eqn:Hl;
        [|done].
      rewrite get_disk_bind. cbn [disk].
      destruct (existsSync _ _); [|done].
      unfold console_log. rewrite emit_bind. intros Hw.
      apply input_loop_accepted in Hl as [_ Hl].
      apply IH; [done | cbn [stdin]; lia]. }
    match goal with
    | |- context [nameLoop ?n ?l ?d ?w1] =>
        specialize (Hn n w1);
        destruct (nameLoop n l d w1) as [[[name path]|e|] w2]
    end; cbn [fst snd] in *.
    - rewrite bind_unfold. unfold prompt_confirm.
      destruct (stdin w2) as [|l1 r1]; [done|].
      rewrite bind_unfold. cbn [stdin].
      destruct r1 as [|l2 r2]; done.
    - done.
    - intros _. apply Hn; [done | cbn [stdin]; lia]. }
  - intros H. destruct (Hs p a w1). by rewrite H.
  - done.
  - intros [= <-]. cbn [fst snd events disk] in *.
    split; [done|]. split; [|by apply Hst].
    erewrite since_app by (rewrite He, <- app_assoc; reflexivity).
    constructor; [by intros [] | done].
Qed.

Lemma abandoned_run_leaves_nothing_witness :
  let w := demoWorld ["/work"; "taken"] in
  let w' := (@action slashPaths calmHost None w).2 in
  @action slashPaths calmHost None w = (Waiting, w')
  /\ disk w' = disk w.
Proof.
  intros w w'.
  assert (H : @action slashPaths calmHost None w = (Waiting, w'))
    by (vm_compute; reflexivity).
  split; [exact H|].
  exact (proj1 (@abandoned_run_leaves_nothing slashPaths calmHost None
                  w w' H)).
Defined.

(** ** The closing lines *)

Lemma console_lines_app evs1 evs2 :
  console_lines (evs1 ++ evs2) = console_lines evs1 ++ console_lines evs2.
Proof. apply omap_app. Qed.

Lemma console_lines_silent evs :
  Forall (fun ev => ~ is_console ev) evs -> console_lines evs = [].
Proof.
  induction 1 as [|ev evs Hev _ IH]; [done|].
  destruct ev; cbn in *; done.
Qed.

Section Silent.
Context {paths : PathLib} {host : Host}.

Lemma silent_scaffold projectPath answers :
  logs (fun ev => ~ is_console ev) (scaffold projectPath answers).
Proof.
  unfold scaffold, createProjectStructure, createPackageJson,
    createConfigFiles, createSourceFiles.
  logs_steps ltac:(by intros []).
Qed.

Lemma silent_install projectPath :
  logs (fun ev => ~ is_console ev) (installDependencies projectPath).
Proof. unfold installDependencies. logs_steps ltac:(by intros []). Qed.

Lemma silent_git projectPath :
  logs (fun ev => ~ is_console ev) (initializeGit projectPath).
Proof. unfold initializeGit. logs_steps ltac:(by intros []). Qed.

End Silent.

(** X9.  In a run of [build] that returns, the scaffolding, the install and
    git print nothing with console.log; the console lines are the closing
    ones in the order of the source, and the hint to run npm install is
    among them exactly when the install was not chosen. *)
Theorem closing_lines_hint {paths : PathLib} {host : Host}
    projectPath answers w w' :
  build projectPath answers w = (Returned tt, w')
  -> console_lines (since w w')
     = [successMessage; "To get started:" +:+ Str.nl;
        "  cd " +:+ projectName answers]
       ++ (if installNow answers then [] else ["  npm install"])
       ++ ["  npm run dev" +:+ Str.nl; "Happy coding!!!"]
     /\ ("  npm install" ∈ console_lines (since w w')
         <-> installNow answers = false).
Proof.
  intros H.
  assert (Hlines : console_lines (since w w')
     = [successMessage; "To get started:" +:+ Str.nl;
        "  cd " +:+ projectName answers]
       ++ (if installNow answers then [] else ["  npm install"])
       ++ ["  npm run dev" +:+ Str.nl; "Happy coding!!!"]).
  { unfold build in H.
    apply bind_returned in H as ([] & w1 & Hs & H).
    destruct (silent_scaffold projectPath answers w) as (e1 & He1 & HP1 & _).
    rewrite Hs in He1. cbn [snd] in He1.
    unfold finish in H.
    apply bind_returned in H as ([] & w2 & Hi & H).
    assert (exists e2, events w2 = events w1 ++ e2
                       /\ Forall (fun ev => ~ is_console ev) e2)
      as (e2 & He2 & HP2).
    { destruct (installNow answers).
      - destruct (silent_install projectPath w1) as (e2 & He2 & HP2 & _).
        rewrite Hi in He2. by exists e2.
      - injection Hi as <-. exists []. by rewrite app_nil_r. }
    apply bind_returned in H as ([] & w3 & Hg & H).
    destruct (silent_git projectPath w2) as (e3 & He3 & HP3 & _).
    rewrite Hg in He3. cbn [snd] in He3.
    assert (events w' = events w3
              ++ map ConsoleLog
                   ([successMessage; "To get started:" +:+ Str.nl;
                     "  cd " +:+ projectName answers]
                    ++ (if installNow answers then [] else ["  npm install"])
                    ++ ["  npm run dev" +:+ Str.nl; "Happy coding!!!"]))
      as He4.
    { revert H. unfold console_log. rewrite !emit_bind.
      destruct (installNow answers);
        [change (negb true) with false | change (negb false) with true];
        cbv iota; repeat (rewrite emit_bind || rewrite ret_bind);
        unfold emit; cbn [disk stdin events];
        rewrite <- ?app_assoc; cbn [app];
        intros [= <-]; reflexivity. }
    erewrite since_app
      by (rewrite He4, He3, He2, He1, <- !app_assoc; reflexivity).
    rewrite !console_lines_app.
    rewrite (console_lines_silent e1), (console_lines_silent e2),
      (console_lines_silent e3) by done.
    cbn [app]. by destruct (installNow answers). }
  split; [exact Hlines|].
  rewrite Hlines. destruct (installNow answers); cbn [app].
  - split; [|done]. intros Hin.
    repeat (apply elem_of_cons in Hin as [Hin|Hin]; [discriminate Hin|]).
    by apply elem_of_nil in Hin.
  - split; [done|]. intros _.
    do 3 apply list_elem_of_further. apply list_elem_of_here.
Qed.

Lemma closing_lines_hint_witness :
  let w := demoWorld [] in
  let a := mkAnswers "/work" "app" false false in
  let w' := (@build slashPaths calmHost "/work/app" a w).2 in
  "  npm install" ∈ console_lines (since w w').
Proof.
  intros w a w'.
  assert (H : @build slashPaths calmHost "/work/app" a w = (Returned tt, w'))
    by (vm_compute; reflexivity).
  exact (proj2 (proj2 (@closing_lines_hint slashPaths calmHost "/work/app"
                         a w w' H)) eq_refl).
Defined.

(** ** Lines the name question rejects *)

Lemma input_loop_all_rejected default lines :
  Forall (fun line => validateProjectName (entered default line) <> Accept)
    lines
  -> input_loop validateProjectName default lines
     = (map (fun _ => Invalid projectNameMessage) lines, None).
Proof.
  induction 1 as [|line lines Hl _ IH]; [done|].
  cbn [input_loop map]. revert Hl. unfold validateProjectName at 1 2.
  destruct (Regex.test projectNamePattern (entered default line)); [done|].
  intros _. by rewrite IH.
Qed.

(** X10.  The name question never lets a rejected value through: when every
    pending line gives a value the validator rejects (an empty line gives
    the default, so also the name from the command line when it is not well
    formed), the program shows the validator's message once per line, is
    left waiting at that question, and nothing else has happened. *)
Theorem rejected_lines_keep_asking {paths : PathLib}
    normalizedLocation default w :
  Forall (fun line => validateProjectName (entered default line) <> Accept)
    (stdin w)
  -> askProjectName normalizedLocation default w
     = (Waiting,
        mkWorld (disk w) []
          (events w ++ Asked "What is your project name?"
             :: map (fun _ => Invalid projectNameMessage) (stdin w))).
Proof.
  intros H. unfold askProjectName. cbn [nameLoop].
  rewrite bind_unfold. unfold prompt_input.
  by rewrite (input_loop_all_rejected _ _ H).
Qed.

Lemma rejected_lines_keep_asking_witness :
  let w := demoWorld [EmptyString; "Bad Name"; EmptyString] in
  (@askProjectName slashPaths "/work" (defaultProjectName (Some "My App")) w).1
  = Waiting.
Proof.
  intros w.
  assert (H : Forall (fun line =>
                validateProjectName
                  (entered (defaultProjectName (Some "My App")) line)
                <> Accept) (stdin w)).
  { unfold w, demoWorld. cbn [stdin].
    repeat (apply Forall_cons; split;
            [vm_compute; intros E; discriminate E|]).
    constructor. }
  exact (f_equal fst (@rejected_lines_keep_asking slashPaths "/work"
                        (defaultProjectName (Some "My App")) w H)).
Defined.

(** ** The location answer *)

(** X11.  Replacing the backslashes a second time changes nothing, so the
    path the location validator tests and the location the project path is
    joined from are the same string, and a location is accepted exactly
    when its normalized form is. *)
Theorem location_normalized_once (d : gmap string Node) input :
  normalizeSlashes (normalizeSlashes input) = normalizeSlashes input
  /\ validateLocation d (normalizeSlashes input) = validateLocation d input.
Proof.
  assert (Hi : normalizeSlashes (normalizeSlashes input)
               = normalizeSlashes input).
  { unfold normalizeSlashes.
    induction input as [|c s IH]; [done|].
    cbn [Str.replace_all]. rewrite IH. f_equal.
    destruct (Ascii.eqb c Str.backslash) eqn:Hc; [done|]. by rewrite Hc. }
  split; [exact Hi|]. unfold validateLocation. by rewrite Hi.
Qed.

(** ** The single-pass variant (src/index.js) *)

Lemma quiet_logs (P : Event -> Prop) {A : Type} (m : IO A) :
  quiet m -> (forall ev, ~ is_request ev -> P ev) -> logs P m.
Proof.
  intros Hq HP w. destruct (Hq w) as (_ & (evs & He & Hf) & Ht).
  exists evs. split; [done|]. split.
  - eapply Forall_impl; [exact Hf | exact HP].
  - intros e He'. by destruct (Ht e).
Qed.

Lemma commands_none evs :
  Forall (fun ev => ~ is_command ev) evs -> commands evs = [].
Proof.
  induction 1 as [|ev evs Hev _ IH]; [done|].
  destruct ev as [[| |]| | | | |]; cbn in *; done.
Qed.

Section IndexJsFacts.
Context {paths : PathLib} {host : Host}.

Lemma IndexJs_action_logs cwd cliName :
  logs (fun ev => ~ is_command ev) (IndexJs.action cwd cliName).
Proof.
  assert (Hq : forall ev, ~ is_request ev -> ~ is_command ev).
  { intros [[| |]| | | | |]; cbn; tauto. }
  unfold IndexJs.action.
  apply logs_bind; [apply logs_console_log; by intros []|]. intros _.
  apply logs_bind; [by apply quiet_logs; [apply quiet_prompt_input|]|].
  intros name.
  apply logs_bind; [by apply quiet_logs; [apply quiet_prompt_input|]|].
  intros location.
  apply logs_bind; [by apply quiet_logs; [apply quiet_prompt_confirm|]|].
  intros router.
  apply logs_bind; [by apply quiet_logs; [apply quiet_get_disk|]|].
  intros d.
  unfold IndexJs.createProjectStructure, IndexJs.createPackageJson,
    IndexJs.createConfigFiles, IndexJs.createSourceFiles.
  logs_steps ltac:(by intros []).
Qed.

(** The three questions on an input whose first line gives a valid name. *)
Lemma IndexJs_questions cliName (d : gmap string Node) line location
    confirm rest evs (k : string -> string -> bool -> IO unit) :
  validateProjectName (entered (defaultProjectName cliName) line) = Accept
  -> (name ← prompt_input "What is your project name?"
               (defaultProjectName cliName) validateProjectName;
      loc ← prompt_input "Where should we create this project?"
              "/c/Users/JojoW/Documents/Coding" (fun _ => Accept);
      router ← prompt_confirm "Include React Router?" true;
      k name loc router)
       (mkWorld d (line :: location :: confirm :: rest) evs)
     = k (entered (defaultProjectName cliName) line)
         (entered "/c/Users/JojoW/Documents/Coding" location)
         (parse_confirm true confirm)
         (mkWorld d rest
            (evs ++ [Asked "What is your project name?";
                     Asked "Where should we create this project?";
                     Asked "Include React Router?"])).
Proof.
  intros Hv. rewrite bind_unfold. unfold prompt_input at 1.
  cbn [stdin input_loop]. rewrite Hv. cbn [disk events].
  rewrite bind_unfold. unfold prompt_input at 1.
  cbn [stdin input_loop disk events].
  rewrite bind_unfold. unfold prompt_confirm at 1.
  cbn [stdin disk events]. by rewrite <- !app_assoc.
Qed.

End IndexJsFacts.

(** X12.  src/index.js asks where the project should be created and never
    reads the answer: when the first line gives a valid name, two runs that
    differ only in the line typed at the location question end in the same
    outcome and the same world, so the project is placed under the working
    directory whatever was answered. *)
Theorem IndexJs_location_ignored {paths : PathLib} {host : Host}
    cwd cliName (d : gmap string Node) line location1 location2 confirm
    rest evs :
  validateProjectName (entered (defaultProjectName cliName) line) = Accept
  -> IndexJs.action cwd cliName
       (mkWorld d (line :: location1 :: confirm :: rest) evs)
     = IndexJs.action cwd cliName
         (mkWorld d (line :: location2 :: confirm :: rest) evs).
Proof.
  intros Hv. unfold IndexJs.action, console_log.
  rewrite !emit_bind. cbn [disk stdin events].
  rewrite !(IndexJs_questions cliName _ _ _ _ _ _ _ Hv).
  reflexivity.
Qed.

Lemma IndexJs_location_ignored_witness :
  @IndexJs.action slashPaths calmHost "/work" None
    (demoWorld ["app"; "/somewhere"; "n"])
  = @IndexJs.action slashPaths calmHost "/work" None
      (demoWorld ["app"; "/elsewhere/entirely"; "n"]).
Proof.
  apply (@IndexJs_location_ignored slashPaths calmHost "/work" None).
  vm_compute. reflexivity.
Defined.

(** X13.  src/index.js checks for an existing directory once, after all
    three questions: when the valid name's path under the working directory
    exists, the run ends there with the message; the name is not asked
    again, the three lines are used up, and the disk is untouched. *)
Theorem IndexJs_collision_ends_run {paths : PathLib} {host : Host}
    cwd cliName (d : gmap string Node) line location confirm rest evs :
  let name := entered (defaultProjectName cliName) line in
  validateProjectName name = Accept
  -> existsSync d (path_join cwd name) = true
  -> IndexJs.action cwd cliName
       (mkWorld d (line :: location :: confirm :: rest) evs)
     = (Returned tt,
        mkWorld d rest
          (evs ++ [ConsoleLog
                     (Str.nl +:+ "🚀 Welcome to Joji App Creator!" +:+ Str.nl);
                   Asked "What is your project name?";
                   Asked "Where should we create this project?";
                   Asked "Include React Router?";
                   ConsoleLog (IndexJs.collisionMessage name)])).
Proof.
  intros name Hv Hx. unfold IndexJs.action, console_log.
  rewrite emit_bind. cbn [disk stdin events].
  rewrite (IndexJs_questions cliName _ _ _ _ _ _ _ Hv).
  rewrite get_disk_bind. cbn [disk]. fold name. rewrite Hx.
  unfold emit. cbn [disk stdin events]. by rewrite <- !app_assoc.
Qed.

Lemma IndexJs_collision_ends_run_witness :
  (@IndexJs.action slashPaths calmHost "/work" None
     (demoWorld ["taken"; "/work"; "y"; "other"])).1 = Returned tt
  /\ stdin (@IndexJs.action slashPaths calmHost "/work" None
              (demoWorld ["taken"; "/work"; "y"; "other"])).2 = ["other"].
Proof.
  unfold demoWorld.
  rewrite (@IndexJs_collision_ends_run slashPaths calmHost "/work" None
             demoDisk "taken" "/work" "y" ["other"] []);
    [done | vm_compute; reflexivity | vm_compute; reflexivity].
Defined.

(** X14.  src/index.js starts no child process: whatever the input, the
    disk and the host, no command is in the log of a run, and an error
    that ends the run is a failed directory or file request of the log. *)
Theorem IndexJs_runs_no_command {paths : PathLib} {host : Host}
    cwd cliName w :
  let r := IndexJs.action cwd cliName w in
  commands (since w r.2) = []
  /\ (forall e, r.1 = Thrown e
      -> Sys e false ∈ since w r.2
         /\ forall command dir, e <> Exec command dir).
Proof.
  intros r. subst r.
  destruct (IndexJs_action_logs cwd cliName w) as (evs & He & HP & Ht).
  rewrite (since_app _ _ _ He). split; [by apply commands_none|].
  intros e Hthrown. specialize (Ht e Hthrown). split; [done|].
  intros command dir ->.
  rewrite Forall_forall in HP. by apply (HP _ Ht).
Qed.

(** ** The page title *)

Lemma contains_app_r pre needle hay :
  Str.contains needle hay = true -> Str.contains needle (pre +:+ hay) = true.
Proof.
  rewrite !contains_spec. intros (before & after & ->).
  exists (pre +:+ before), after. by rewrite string_app_assoc.
Qed.

Lemma contains_app_l needle rest :
  Str.contains needle (needle +:+ rest) = true.
Proof. apply contains_spec. by exists EmptyString, rest. Qed.

Lemma contains_prefix needle hay :
  String.prefix needle hay = true -> Str.contains needle hay = true.
Proof. intros H. destruct hay; cbn [Str.contains]; by rewrite H. Qed.

Lemma prefix_app_same common p s :
  String.prefix p s = true
  -> String.prefix (common +:+ p) (common +:+ s) = true.
Proof.
  rewrite !prefix_spec. intros [t ->]. exists t.
  by rewrite string_app_assoc.
Qed.

(** X15.  The generated index.html carries the project name as its title,
    whatever the name and the other answers are. *)
Theorem indexHtml_title answers :
  Str.contains ("<title>" +:+ projectName answers +:+ "</title>")
    (indexHtml answers) = true.
Proof.
  unfold indexHtml.
  do 8 apply contains_app_r.
  match goal with
  | |- Str.contains _ (?a +:+ ?b) = true =>
      change a with ((" />" +:+ Str.nl +:+ "    ") +:+ "<title>")
  end.
  rewrite string_app_assoc. apply contains_app_r.
  apply contains_prefix.
  do 2 apply prefix_app_same.
  vm_compute. reflexivity.
Qed.

(** ** The questions of a run *)

Lemma questions_app evs1 evs2 :
  questions (evs1 ++ evs2) = questions evs1 ++ questions evs2.
Proof. apply omap_app. Qed.

(** A validator's messages are neither questions nor console lines. *)
Lemma input_loop_messages validate default lines :
  questions (input_loop validate default lines).1 = []
  /\ console_lines (input_loop validate default lines).1 = [].
Proof.
  induction lines as [|line lines IH]; cbn [input_loop]; [done|].
  destruct (validate (entered default line)); [done|].
  destruct (input_loop validate default lines) as [evs r]. exact IH.
Qed.

Lemma prompt_input_trace message default validate w value w' :
  prompt_input message default validate w = (Returned value, w')
  -> exists evs,
       events w' = events w ++ evs
       /\ questions evs = [message]
       /\ console_lines evs = [].
Proof.
  unfold prompt_input.
  pose proof (input_loop_messages validate default (stdin w)) as [Hq Hc].
  destruct (input_loop validate default (stdin w)) as [evs [[v rest]|]];
    [|done].
  intros [= _ <-]. cbn [fst events] in *.
  exists (Asked message :: evs). split; [done|].
  split; [|exact Hc].
  change (questions (Asked message :: evs)) with (message :: questions evs).
  by rewrite Hq.
Qed.

Lemma prompt_confirm_trace message default w b w' :
  prompt_confirm message default w = (Returned b, w')
  -> events w' = events w ++ [Asked message].
Proof.
  unfold prompt_confirm. destruct (stdin w); [done|]. by intros [= _ <-].
Qed.

Section QuestionTrace.
Context {paths : PathLib}.

Lemma nameLoop_trace fuel location default w name projectPath w' :
  nameLoop fuel location default w = (Returned (name, projectPath), w')
  -> exists evs taken,
       events w' = events w ++ evs
       /\ questions evs
          = repeat "What is your project name?" (S (length taken))
       /\ console_lines evs = map collisionMessage taken
       /\ Forall (fun n => validateProjectName n = Accept
                           /\ existsSync (disk w) (path_join location n)
                              = true) taken.
Proof.
  revert w. induction fuel as [|fuel IH]; intros w H; [done|].
  cbn [nameLoop] in H.
  apply bind_returned in H as (name0 & w1 & Hp & H).
  destruct (prompt_input_trace _ _ _ _ _ _ Hp) as (e1 & He1 & Hq1 & Hc1).
  apply prompt_input_returned in Hp as (Hv & Hd & _).
  apply bind_returned in H as (d & w2 & Hg & H).
  injection Hg as <- <-.
  destruct (existsSync (disk w1) (path_join location name0)) eqn:Hex.
  - apply bind_returned in H as (u & w3 & Hc & H).
    apply emit_returned in Hc. subst w3.
    apply IH in H as (e2 & taken & He2 & Hq2 & Hc2 & Ht).
    cbn [disk stdin events] in *.
    exists (e1 ++ ConsoleLog (collisionMessage name0) :: e2), (name0 :: taken).
    split; [by rewrite He2, He1, <- !app_assoc|].
    rewrite questions_app, console_lines_app, Hq1, Hc1.
    change (questions (ConsoleLog (collisionMessage name0) :: e2))
      with (questions e2).
    change (console_lines (ConsoleLog (collisionMessage name0) :: e2))
      with (collisionMessage name0 :: console_lines e2).
    rewrite Hq2, Hc2. split; [done|]. split; [done|].
    rewrite Hd in Hex, Ht. by constructor.
  - injection H as <- <- <-. exists e1, [].
    rewrite Hq1, Hc1. split; [done|]. split; [done|].
    split; [done | constructor].
Qed.

End QuestionTrace.

(** X16.  When the questions are all answered, they were shown in the order
    location, name, router, install; the name question was shown once more
    than there were names found taken, the only console lines in between
    are the messages for those names, in order, and each of them had
    passed the validator and named an existing path under the normalized
    location. *)
Theorem questions_in_order {paths : PathLib} cliName w projectPath answers
    w' :
  ask cliName w = (Returned (projectPath, answers), w')
  -> exists taken,
       questions (since w w')
       = ["Where should we create this project?"]
         ++ repeat "What is your project name?" (S (length taken))
         ++ ["Include React Router?"; "Install dependencies now?"]
       /\ console_lines (since w w') = map collisionMessage taken
       /\ Forall (fun n =>
                    validateProjectName n = Accept
                    /\ existsSync (disk w)
                         (path_join
                            (normalizeSlashes (projectLocation answers)) n)
                       = true) taken.
Proof.
  intros H. unfold ask in H. rewrite get_disk_bind in H.
  apply bind_returned in H as (location & wa & Hloc & H).
  destruct (prompt_input_trace _ _ _ _ _ _ Hloc) as (e1 & He1 & Hq1 & Hc1).
  apply prompt_input_returned in Hloc as (_ & Hda & _).
  apply bind_returned in H as ([name path] & wb & Hname & H).
  apply nameLoop_trace in Hname as (e2 & taken & He2 & Hq2 & Hc2 & Ht).
  apply bind_returned in H as (router & wc & Hr & H).
  apply prompt_confirm_trace in Hr.
  apply bind_returned in H as (install & wd & Hi & H).
  apply prompt_confirm_trace in Hi.
  injection H as <- <- <-. cbn [projectLocation].
  exists taken.
  erewrite since_app
    by (rewrite Hi, Hr, He2, He1, <- !app_assoc; reflexivity).
  rewrite !questions_app, !console_lines_app, Hq1, Hc1, Hq2, Hc2.
  cbn [questions console_lines omap]. rewrite !app_nil_r.
  rewrite Hda in Ht. split; [reflexivity | done].
Qed.

Lemma questions_in_order_witness :
  let w := demoWorld ["/work"; "taken"; "Bad Name"; "app"; "n"; "n"] in
  let r := @ask slashPaths None w in
  exists taken : list string,
    questions (since w r.2)
    = ["Where should we create this project?"]
      ++ repeat "What is your project name?" (S (length taken))
      ++ ["Include React Router?"; "Install dependencies now?"].
Proof.
  intros w r.
  assert (H : @ask slashPaths None w
              = (Returned ("/work/app", mkAnswers "/work" "app" false false),
                 r.2))
    by (vm_compute; reflexivity).
  destruct (@questions_in_order slashPaths None w _ _ _ H)
    as (taken & Hq & _).
  by exists taken.
Defined.
